(** * shutr7: the PTP engine of the Canon EOS R7 shutter-count reader

    A shallow embedding of [shutr7/ptp/transport.py], [shutr7/ptp/protocol.py]
    and [shutr7/ptp/canon.py].

    Python integers are unbounded, so every integer (offsets, lengths,
    transaction ids, u32 fields) is a [Z]; [bytes] objects are lists of
    [Byte.byte]; a Python [str] is the list of its code points.  Python
    exceptions are values of [exn]: pure helpers return a [result], and the
    methods of the transport and protocol classes run in a state-and-exception
    monad over the transport object and the USB endpoints it talks to. *)

From Stdlib Require Import Ascii String.
From Stdlib Require Import ZArith List Lia Bool.
From Stdlib.Strings Require Import Byte.
From Equations Require Import Equations.
Import ListNotations.
Local Open Scope Z_scope.

(** ** Byte strings and Python slicing *)

Definition bytes := list byte.

Definition len {A : Type} (l : list A) : Z := Z.of_nat (length l).

(** An index of a slice, as Python normalises it against a sequence of
    length [n]: negative indices count from the end, and everything is
    clamped to [0..n]. *)
Definition clamp_index (n i : Z) : Z :=
  if i <? 0 then Z.max 0 (n + i) else Z.min i n.

(** [l[start:stop]] *)
Definition slice {A : Type} (l : list A) (start stop : Z) : list A :=
  let a := clamp_index (len l) start in
  let b := clamp_index (len l) stop in
  firstn (Z.to_nat (b - a)) (skipn (Z.to_nat a) l).

(** [l[start:]] *)
Definition slice_from {A : Type} (l : list A) (start : Z) : list A :=
  slice l start (len l).

(** [l[:stop]] *)
Definition slice_to {A : Type} (l : list A) (stop : Z) : list A :=
  slice l 0 stop.

Definition byte_val (b : byte) : Z := Z.of_N (Byte.to_N b).

Definition byte_of_Z (z : Z) : byte :=
  match Byte.of_N (Z.to_N z) with
  | Some b => b
  | None => x00
  end.

(** Little-endian unsigned integer held by a byte string. *)
Fixpoint le_uint (bs : bytes) : Z :=
  match bs with
  | [] => 0
  | b :: rest => byte_val b + 256 * le_uint rest
  end.

(** The [n] little-endian bytes of [v]. *)
Fixpoint le_bytes (n : nat) (v : Z) : bytes :=
  match n with
  | O => []
  | S k => byte_of_Z (v mod 256) :: le_bytes k (v / 256)
  end.

(** ** Exceptions *)

(** The messages [USBTransportError] is raised with in [transport.py]. *)
Inductive transport_failure : Type :=
| NotConnected
| FailedToSendCommand
| FailedToSendData
| PacketTooShort (n : Z)
| UnexpectedPacketType (pkt_type : Z)
| FailedToReceiveResponse.

(** The messages [RuntimeError] is raised with in [protocol.py] and
    [canon.py]. *)
Inductive runtime_failure : Type :=
| FailedToOpenSession (response_code : Z)
| FailedToGetDeviceInfo (response_code : Z)
| CommandFailed (operation response_code : Z)
| GetEventFailed (response_code : Z).

Inductive exn : Type :=
| IndexError
| AttributeError
| StructError
| UnicodeDecodeError
| USBError
| USBTransportError (why : transport_failure)
| RuntimeError (why : runtime_failure).

Inductive result (A : Type) : Type :=
| Ok (a : A)
| Raise (e : exn).
Arguments Ok {A} a.
Arguments Raise {A} e.

Definition bind_result {A B : Type} (r : result A) (k : A -> result B) : result B :=
  match r with
  | Ok a => k a
  | Raise e => Raise e
  end.

Notation "'let*' x ':=' e 'in' k" := (bind_result e (fun x => k))
  (at level 10, x pattern, e at level 200, k at level 200).

(** ** The [struct] formats the code uses *)

Definition fits (bits v : Z) : bool := (0 <=? v) && (v <? 2 ^ bits).

(** [struct.pack("<I", v)] *)
Definition pack_I (v : Z) : result bytes :=
  if fits 32 v then Ok (le_bytes 4 v) else Raise StructError.

(** [struct.pack("<H", v)] *)
Definition pack_H (v : Z) : result bytes :=
  if fits 16 v then Ok (le_bytes 2 v) else Raise StructError.

(** [struct.pack("<IHHI", length, type, code, tid)] *)
Definition pack_IHHI (length type code tid : Z) : result bytes :=
  let* b0 := pack_I length in
  let* b1 := pack_H type in
  let* b2 := pack_H code in
  let* b3 := pack_I tid in
  Ok (b0 ++ b1 ++ b2 ++ b3).

(** [struct.unpack("<I", b)[0]]: the buffer must hold exactly 4 bytes. *)
Definition unpack_I (b : bytes) : result Z :=
  if len b =? 4 then Ok (le_uint b) else Raise StructError.

(** [struct.unpack("<II", b)] *)
Definition unpack_II (b : bytes) : result (Z * Z) :=
  if len b =? 8 then Ok (le_uint (slice b 0 4), le_uint (slice b 4 8))
  else Raise StructError.

(** [struct.unpack("<IHHI", b)] *)
Definition unpack_IHHI (b : bytes) : result (Z * Z * Z * Z) :=
  if len b =? 12 then
    Ok (le_uint (slice b 0 4), le_uint (slice b 4 6),
        le_uint (slice b 6 8), le_uint (slice b 8 12))
  else Raise StructError.

(** Where [struct.unpack_from(fmt, data, offset)] starts reading [size]
    bytes: a negative offset counts from the end, and the call raises
    [struct.error] unless [size] bytes are there. *)
Definition unpack_start (size : Z) (data : bytes) (offset : Z) : result Z :=
  let o := if offset <? 0 then offset + len data else offset in
  if (0 <=? o) && (o + size <=? len data) then Ok o else Raise StructError.

(** [struct.unpack_from("<I", data, offset)[0]] *)
Definition unpack_from_I (data : bytes) (offset : Z) : result Z :=
  let* o := unpack_start 4 data offset in
  Ok (le_uint (slice data o (o + 4))).

(** [struct.unpack_from("<II", data, offset)] *)
Definition unpack_from_II (data : bytes) (offset : Z) : result (Z * Z) :=
  let* o := unpack_start 8 data offset in
  Ok (le_uint (slice data o (o + 4)), le_uint (slice data (o + 4) (o + 8))).

(** ** constants.py *)

Definition GET_DEVICE_INFO : Z := 0x1001.
Definition OPEN_SESSION : Z := 0x1002.
Definition CLOSE_SESSION : Z := 0x1003.
Definition SET_REMOTE_MODE : Z := 0x9114.
Definition SET_EVENT_MODE : Z := 0x9115.
Definition GET_EVENT : Z := 0x9116.
Definition SHUTTER_RELEASE_COUNTER : Z := 0xD167.
Definition OK : Z := 0x2001.
Definition DEVICE_BUSY : Z := 0x2019.
Definition PROP_VALUE_CHANGED : Z := 0xC189.
Definition COMMAND : Z := 1.
Definition DATA : Z := 2.
Definition RESPONSE : Z := 3.

(** ** canon.py: the event stream *)

(** [EOSPropertyValue.value] is [int | bytes]. *)
Inductive prop_value : Type :=
| VInt (n : Z)
| VBytes (b : bytes).

Record EOSPropertyValue : Type := mkEOSPropertyValue {
  property_code : Z;
  value : prop_value
}.

(** The body of [if event_code == PROP_VALUE_CHANGED:] in
    [_parse_event_data]: the events one record yields. *)
Definition decode_prop_record (data : bytes) (offset record_len : Z)
  : result (list EOSPropertyValue) :=
  let record_data := slice data (offset + 8) (offset + record_len) in
  if 4 <=? len record_data then
    let* prop_code := unpack_from_I record_data 0 in
    let prop_value := slice_from record_data 4 in
    if len prop_value =? 4 then
      let* n := unpack_I prop_value in
      Ok [mkEOSPropertyValue prop_code (VInt n)]
    else if 0 <? len prop_value then
      Ok [mkEOSPropertyValue prop_code (VBytes prop_value)]
    else Ok []
  else Ok [].

(** One pass through the [while] loop of [_parse_event_data]: the loop is
    left ([Halt]: the condition is false, or [break]), or the record at
    [offset] yields [evs] and the offset moves on. *)
Inductive iteration : Type :=
| Halt
| Advance (evs : list EOSPropertyValue) (offset' : Z).

Definition event_iteration (data : bytes) (offset : Z) : result iteration :=
  if offset + 8 <=? len data then
    let* (record_len, event_code) := unpack_from_II data offset in
    if (record_len =? 0) || (event_code =? 0) then Ok Halt
    else
      let* evs := (if event_code =? PROP_VALUE_CHANGED
                   then decode_prop_record data offset record_len
                   else Ok []) in
      Ok (Advance evs (offset + record_len))
  else Ok Halt.

(** A value together with the fact that it is what [x] evaluates to. *)
Definition inspect {A : Type} (x : A) : {y : A | x = y} := exist _ x eq_refl.

(** The loop itself, from a given offset; it ends because a pass that does
    not leave the loop moves the offset forward. *)
Equations? event_loop (data : bytes) (offset : Z) : result (list EOSPropertyValue)
  by wf (Z.to_nat (len data - offset)) lt :=
event_loop data offset with inspect (event_iteration data offset) := {
  | exist _ (Raise e) _ => Raise e
  | exist _ (Ok Halt) _ => Ok []
  | exist _ (Ok (Advance evs offset')) Hit =>
      let* rest := event_loop data offset' in Ok (evs ++ rest) }.
Proof.
  unfold event_iteration in Hit.
  destruct (offset + 8 <=? len data) eqn:Hle; [|discriminate].
  apply Z.leb_le in Hle.
  unfold unpack_from_II in Hit.
  destruct (unpack_start 8 data offset) as [o|e]; cbn in Hit; [|discriminate].
  set (L := le_uint (slice data o (o + 4))) in *.
  set (c := le_uint (slice data (o + 4) (o + 8))) in *.
  destruct ((L =? 0) || (c =? 0)) eqn:Hz; [discriminate|].
  apply orb_false_iff in Hz. destruct Hz as [HL _]. apply Z.eqb_neq in HL.
  assert (0 <= L).
  { subst L. generalize (slice data o (o + 4)). intro bs.
    induction bs as [|b bs IH]; cbn [le_uint]; [lia|].
    pose proof (N2Z.is_nonneg (Byte.to_N b)). unfold byte_val. lia. }
  destruct (if c =? PROP_VALUE_CHANGED then _ else _); cbn in Hit; [|discriminate].
  injection Hit as _ Ho. subst offset'. lia.
Qed.

(** [_parse_event_data(data)], collected as [get_event] does with [list(...)]. *)
Definition _parse_event_data (data : bytes) : result (list EOSPropertyValue) :=
  event_loop data 0.

(** The [for event in ...] loop of [get_shutter_count], over the list that
    [get_event] returned. *)
Fixpoint scan_shutter_count (events : list EOSPropertyValue) : result (option (Z * Z)) :=
  match events with
  | [] => Ok None
  | event :: rest =>
      if property_code event =? SHUTTER_RELEASE_COUNTER then
        match value event with
        | VBytes b =>
            if 16 <=? len b then
              let* (mechanical, total) := unpack_II (slice b 8 16) in
              Ok (Some (mechanical, total))
            else scan_shutter_count rest
        | VInt _ => scan_shutter_count rest
        end
      else scan_shutter_count rest
  end.

(** ** protocol.py: decoding the device-info dataset *)

(** A Python [str], as its code points. *)
Definition str := list Z.

(** One 16-bit code unit, low byte first. *)
Definition code_unit (lo hi : byte) : Z := byte_val lo + 256 * byte_val hi.

Definition is_high_surrogate (u : Z) : bool := (0xD800 <=? u) && (u <=? 0xDBFF).
Definition is_low_surrogate (u : Z) : bool := (0xDC00 <=? u) && (u <=? 0xDFFF).

(** [b.decode("utf-16-le")] with the default strict error handling: an odd
    trailing byte, a high surrogate without a low one after it, or a low
    surrogate on its own raise [UnicodeDecodeError]. *)
Fixpoint utf16le_decode (b : bytes) : result str :=
  match b with
  | [] => Ok []
  | [_] => Raise UnicodeDecodeError
  | lo :: hi :: rest =>
      let u := code_unit lo hi in
      if is_high_surrogate u then
        match rest with
        | lo2 :: hi2 :: rest' =>
            let u2 := code_unit lo2 hi2 in
            if is_low_surrogate u2 then
              let* s := utf16le_decode rest' in
              Ok (0x10000 + (u - 0xD800) * 0x400 + (u2 - 0xDC00) :: s)
            else Raise UnicodeDecodeError
        | _ => Raise UnicodeDecodeError
        end
      else if is_low_surrogate u then Raise UnicodeDecodeError
      else
        let* s := utf16le_decode rest in
        Ok (u :: s)
  end.

(** [data[i]] on a [bytes] object. *)
Definition getitem (data : bytes) (i : Z) : result Z :=
  let j := if i <? 0 then i + len data else i in
  if (0 <=? j) && (j <? len data)
  then Ok (byte_val (nth (Z.to_nat j) data x00))
  else Raise IndexError.

(** [try: ... except UnicodeDecodeError: string = ""] *)
Definition except_UnicodeDecodeError (r : result str) : result str :=
  match r with
  | Raise UnicodeDecodeError => Ok []
  | _ => r
  end.

Definition _read_ptp_string (data : bytes) (offset : Z) : result (str * Z) :=
  if len data <=? offset then Ok ([], offset)
  else
    let* num_chars := getitem data offset in
    let offset := offset + 1 in
    if num_chars =? 0 then Ok ([], offset)
    else
      let byte_len := num_chars * 2 in
      if len data <? offset + byte_len then Ok ([], offset)
      else
        let* string :=
          except_UnicodeDecodeError
            (utf16le_decode (slice data offset (offset + byte_len - 2))) in
        let offset := offset + byte_len in
        Ok (string, offset).

Definition _skip_uint16_array (data : bytes) (offset : Z) : result Z :=
  if len data <? offset + 4 then Ok offset
  else
    let* count := unpack_from_I data offset in
    Ok (offset + 4 + count * 2).

(** [for _ in range(n): offset = self._skip_uint16_array(data, offset)] *)
Fixpoint skip_arrays (n : nat) (data : bytes) (offset : Z) : result Z :=
  match n with
  | O => Ok offset
  | S k =>
      let* offset := _skip_uint16_array data offset in
      skip_arrays k data offset
  end.

Record DeviceInfo : Type := mkDeviceInfo {
  manufacturer : str;
  model : str;
  device_version : str
}.

Definition _parse_device_info (data : bytes) : result DeviceInfo :=
  let offset := 8 in
  let* (_, offset) := _read_ptp_string data offset in
  let offset := offset + 2 in
  let* offset := skip_arrays 5 data offset in
  let* (manufacturer, offset) := _read_ptp_string data offset in
  let* (model, offset) := _read_ptp_string data offset in
  let* (device_version, offset) := _read_ptp_string data offset in
  Ok (mkDeviceInfo manufacturer model device_version).

(** ** transport.py: the USB endpoints *)

(** What one [in_ep.read(READ_BUFFER_SIZE, TIMEOUT_MS)] does: it returns
    the bytes of one transfer, or raises [usb.core.USBError]. *)
Inductive usb_read : Type :=
| ReadOk (raw : bytes)
| ReadError.

(** The bulk-in endpoint with the reads the device will answer, in order.
    When the device has nothing more to send, a read times out, which
    PyUSB reports as [USBError]. *)
Record InEndpoint : Type := mkInEndpoint {
  pending : list usb_read
}.

(** The bulk-out endpoint: the packets written so far, and for the coming
    writes whether each fails ([true]) with [USBError]; writes beyond the
    list succeed. *)
Record OutEndpoint : Type := mkOutEndpoint {
  sent : list bytes;
  faults : list bool
}.

(** The fields of [USBTransport] that [send_command] touches. *)
Record USBTransport : Type := mkUSBTransport {
  in_ep : option InEndpoint;
  out_ep : option OutEndpoint;
  _transaction_id : Z
}.

(** Methods: the object may change even when the call raises. *)
Definition M (A : Type) : Type := USBTransport -> USBTransport * result A.

Definition ret {A : Type} (a : A) : M A := fun self => (self, Ok a).

Definition raise {A : Type} (e : exn) : M A := fun self => (self, Raise e).

Definition bind {A B : Type} (m : M A) (k : A -> M B) : M B :=
  fun self =>
    match m self with
    | (self', Ok a) => k a self'
    | (self', Raise e) => (self', Raise e)
    end.

Notation "'let!' x ':=' m 'in' k" := (bind m (fun x => k))
  (at level 10, x pattern, m at level 200, k at level 200).

(** A pure computation inside a method. *)
Definition lift {A : Type} (r : result A) : M A := fun self => (self, r).

(** [try: m  except usb.core.USBError as e: raise USBTransportError(why) from e] *)
Definition except_USBError {A : Type} (m : M A) (why : transport_failure) : M A :=
  fun self =>
    match m self with
    | (self', Raise USBError) => (self', Raise (USBTransportError why))
    | r => r
    end.

(** [try: m  except Exception: pass] *)
Definition except_Exception_pass {A : Type} (m : M A) : M unit :=
  fun self =>
    match m self with
    | (self', _) => (self', Ok tt)
    end.

(** [self.out_ep.write(packet, self.TIMEOUT_MS)] *)
Definition out_ep_write (packet : bytes) : M unit :=
  fun self =>
    match out_ep self with
    | None => (self, Raise AttributeError)
    | Some ep =>
        match faults ep with
        | true :: fs =>
            (mkUSBTransport (in_ep self) (Some (mkOutEndpoint (sent ep) fs))
                            (_transaction_id self),
             Raise USBError)
        | fs =>
            (mkUSBTransport (in_ep self)
                            (Some (mkOutEndpoint (sent ep ++ [packet]) (tl fs)))
                            (_transaction_id self),
             Ok tt)
        end
    end.

(** The [transaction_id] property: the current id, incremented for next use. *)
Definition transaction_id : M Z :=
  fun self =>
    let tid := _transaction_id self in
    (mkUSBTransport (in_ep self) (out_ep self) (_transaction_id self + 1), Ok tid).

Definition reset_transaction_id : M unit :=
  fun self => (mkUSBTransport (in_ep self) (out_ep self) 0, Ok tt).

(** [b"".join(struct.pack("<I", p) for p in params)] *)
Fixpoint pack_params (params : list Z) : result bytes :=
  match params with
  | [] => Ok []
  | p :: ps =>
      let* b := pack_I p in
      let* rest := pack_params ps in
      Ok (b ++ rest)
  end.

(** The inner loop of [send_command],
    [while len(response_data) + 12 < pkt_len: response_data += read()],
    on the reads still to come; it gives the accumulated bytes and the reads
    left. *)
Fixpoint read_more (pkt_len : Z) (reads : list usb_read) (response_data : bytes)
  : list usb_read * result bytes :=
  if len response_data + 12 <? pkt_len then
    match reads with
    | [] => ([], Raise USBError)
    | ReadError :: rest => (rest, Raise USBError)
    | ReadOk more :: rest => read_more pkt_len rest (response_data ++ more)
    end
  else (reads, Ok response_data).

(** The [while True:] loop of [send_command] on the reads still to come,
    entered with the current [response_data].  The inner loop is the local
    [more_data], which is [read_more] followed by the trim and the next pass
    of the outer loop. *)
Fixpoint receive (reads : list usb_read) (response_data : bytes) {struct reads}
  : list usb_read * result (Z * bytes) :=
  match reads with
  | [] => ([], Raise USBError)
  | ReadError :: rest => (rest, Raise USBError)
  | ReadOk raw_bytes :: rest =>
      if len raw_bytes <? 12 then
        (rest, Raise (USBTransportError (PacketTooShort (len raw_bytes))))
      else
        match unpack_IHHI (slice_to raw_bytes 12) with
        | Raise e => (rest, Raise e)
        | Ok (pkt_len, pkt_type, pkt_code, pkt_tid) =>
            if pkt_type =? DATA then
              (fix more_data (reads : list usb_read) (response_data : bytes)
                   {struct reads} : list usb_read * result (Z * bytes) :=
                 if len response_data + 12 <? pkt_len then
                   match reads with
                   | [] => ([], Raise USBError)
                   | ReadError :: rest' => (rest', Raise USBError)
                   | ReadOk more :: rest' => more_data rest' (response_data ++ more)
                   end
                 else receive reads (slice_to response_data (pkt_len - 12)))
                rest (slice_from raw_bytes 12)
            else if pkt_type =? RESPONSE then
              (rest, Ok (pkt_code, response_data))
            else
              (rest, Raise (USBTransportError (UnexpectedPacketType pkt_type)))
        end
  end.

(** Reading the response on [self.in_ep], starting with
    [response_data = b""]. *)
Definition in_ep_receive : M (Z * bytes) :=
  fun self =>
    match in_ep self with
    | None => (self, Raise AttributeError)
    | Some ep =>
        let '(reads, r) := receive (pending ep) [] in
        (mkUSBTransport (Some (mkInEndpoint reads)) (out_ep self)
                        (_transaction_id self),
         r)
    end.

Definition is_None {A : Type} (o : option A) : bool :=
  match o with
  | None => true
  | Some _ => false
  end.

Definition send_command (operation_code : Z) (params : option (list Z))
    (data : option bytes) : M (Z * bytes) :=
  fun self =>
    if is_None (out_ep self) || is_None (in_ep self) then
      raise (USBTransportError NotConnected) self
    else
      (let params := match params with None => [] | Some ps => ps end in
       let! tid := transaction_id in
       let! param_data := lift (pack_params params) in
       let! header := lift (pack_IHHI (12 + len param_data) COMMAND operation_code tid) in
       let cmd_packet := header ++ param_data in
       let! _ := except_USBError (out_ep_write cmd_packet) FailedToSendCommand in
       let! _ := match data with
            | Some data =>
                let! header := lift (pack_IHHI (12 + len data) DATA operation_code tid) in
                let data_packet := header ++ data in
                except_USBError (out_ep_write data_packet) FailedToSendData
            | None => ret tt
            end in
       except_USBError in_ep_receive FailedToReceiveResponse) self.

(** ** protocol.py and canon.py: sessions and commands *)

Definition open_session : M unit :=
  let! r := send_command OPEN_SESSION (Some [1]) None in
  if negb (fst r =? OK) then raise (RuntimeError (FailedToOpenSession (fst r)))
  else reset_transaction_id.

Definition close_session : M unit :=
  except_Exception_pass (send_command CLOSE_SESSION None None).

Definition get_device_info : M DeviceInfo :=
  let! r := send_command GET_DEVICE_INFO None None in
  if negb (fst r =? OK) then raise (RuntimeError (FailedToGetDeviceInfo (fst r)))
  else lift (_parse_device_info (snd r)).

Definition _send_canon_command (operation : Z) (params : option (list Z)) : M unit :=
  let! r := send_command operation params None in
  if negb (fst r =? OK) then raise (RuntimeError (CommandFailed operation (fst r)))
  else ret tt.

Definition get_event : M (list EOSPropertyValue) :=
  let! r := send_command GET_EVENT None None in
  if negb (fst r =? OK) then raise (RuntimeError (GetEventFailed (fst r)))
  else lift (_parse_event_data (snd r)).

Definition get_shutter_count : M (option (Z * Z)) :=
  let! events := get_event in
  lift (scan_shutter_count events).

Definition initialize_eos_session : M unit :=
  let! _ := open_session in
  let! _ := _send_canon_command SET_REMOTE_MODE (Some [1]) in
  _send_canon_command SET_EVENT_MODE (Some [1]).

(** ** Names for the parts of an event record

    The two header fields of the record at [offset] of [data]. *)
Definition record_len_at (data : bytes) (offset : Z) : Z :=
  le_uint (slice data offset (offset + 4)).
Definition event_code_at (data : bytes) (offset : Z) : Z :=
  le_uint (slice data (offset + 4) (offset + 8)).

(** The record data [data[offset + 8 : offset + record_len]] and, after its
    4-byte property code, the value payload [record_data[4:]]. *)
Definition record_data_at (data : bytes) (offset : Z) : bytes :=
  slice data (offset + 8) (offset + record_len_at data offset).
Definition payload_at (data : bytes) (offset : Z) : bytes :=
  slice_from (record_data_at data offset) 4.

(** The spec's words for what a property-value-changed record yields: the
    first 4 bytes of the record data are the property code; a payload of
    exactly 4 bytes is a little-endian u32 integer, any other non-empty
    payload is kept as raw bytes, an empty payload gives no event. *)
Definition spec_property_events (data : bytes) (offset : Z) : list EOSPropertyValue :=
  let prop_code := le_uint (slice (record_data_at data offset) 0 4) in
  if len (payload_at data offset) =? 4 then
    [mkEOSPropertyValue prop_code (VInt (le_uint (payload_at data offset)))]
  else if 0 <? len (payload_at data offset) then
    [mkEOSPropertyValue prop_code (VBytes (payload_at data offset))]
  else [].

(** The spec's words for [get_shutter_counters]: take the first event whose
    property code is the shutter-release-counter code and whose value is raw
    bytes of length at least 16, and read the little-endian u32 values at
    byte offsets [8,12) and [12,16) as mechanical and total counts; nothing
    if there is no such event. *)
Definition is_counter_event (e : EOSPropertyValue) : bool :=
  (property_code e =? 0xD167) &&
  match value e with
  | VBytes b => 16 <=? len b
  | VInt _ => false
  end.

Definition spec_shutter_counters (events : list EOSPropertyValue) : option (Z * Z) :=
  match find is_counter_event events with
  | Some {| value := VBytes b |} => Some (le_uint (slice b 8 12), le_uint (slice b 12 16))
  | _ => None
  end.

(** ** Sample buffers *)

Definition bytes_of (l : list Z) : bytes := map byte_of_Z l.

(** One property-value-changed record for 0xD167 whose value is 8 reserved
    bytes and twice the little-endian u32 150000, then a zero-length
    terminator record. *)
Definition sample_events : bytes :=
  bytes_of [28; 0; 0; 0;  0x89; 0xC1; 0; 0;  0x67; 0xD1; 0; 0;
            0; 0; 0; 0; 0; 0; 0; 0;
            0xF0; 0x49; 0x02; 0;  0xF0; 0x49; 0x02; 0;
            0; 0; 0; 0;  0; 0; 0; 0].

(** A record of another event code (0xC18A, 12 bytes), then a
    property-value-changed record with a 4-byte value, then one with an
    empty value, then one cut short by the end of the buffer. *)
Definition sample_mixed : bytes :=
  bytes_of [12; 0; 0; 0;  0x8A; 0xC1; 0; 0;  1; 2; 3; 4;
            16; 0; 0; 0;  0x89; 0xC1; 0; 0;  0x01; 0xD1; 0; 0;  0x78; 0x56; 0x34; 0x12;
            12; 0; 0; 0;  0x89; 0xC1; 0; 0;  0x02; 0xD1; 0; 0;
            40; 0; 0; 0;  0x89; 0xC1; 0; 0;  0x03; 0xD1].

(** A Data container holding [payload] and a Response container, as the
    device sends them. *)
Definition data_container (code tid : Z) (payload : bytes) : bytes :=
  le_bytes 4 (12 + len payload) ++ le_bytes 2 DATA ++ le_bytes 2 code ++
  le_bytes 4 tid ++ payload.

Definition response_container (code tid : Z) : bytes :=
  le_bytes 4 12 ++ le_bytes 2 RESPONSE ++ le_bytes 2 code ++ le_bytes 4 tid.

(** A connected transport at transaction id 0 whose device will answer with
    [reads]; the one of [sample_event_transport] answers GetEvent with
    [sample_events] and OK. *)
Definition sample_transport (reads : list usb_read) : USBTransport :=
  mkUSBTransport (Some (mkInEndpoint reads)) (Some (mkOutEndpoint [] [])) 0.

Definition sample_event_transport : USBTransport :=
  sample_transport [ReadOk (data_container GET_EVENT 0 sample_events);
                    ReadOk (response_container OK 0)].

(** The code points of a string literal, and its encoding as a protocol
    string: the count byte (characters and terminator), the UTF-16LE code
    units, the two-byte terminator. *)
Definition str_of (s : string) : str :=
  map (fun c => Z.of_N (N_of_ascii c)) (list_ascii_of_string s).

Definition ptp_string_of (s : string) : bytes :=
  byte_of_Z (len (str_of s) + 1) ::
  flat_map (fun u => [byte_of_Z u; x00]) (str_of s) ++ [x00; x00].

(** A device-info dataset: standard version 100, vendor extension id 0xB and
    version 100, an empty vendor extension description, functional mode 0,
    five empty arrays, then manufacturer, model and device version. *)
Definition sample_device_info : bytes :=
  bytes_of [100; 0;  0x0B; 0; 0; 0;  100; 0] ++
  bytes_of [0] ++
  bytes_of [0; 0] ++
  bytes_of [0; 0; 0; 0] ++ bytes_of [0; 0; 0; 0] ++ bytes_of [0; 0; 0; 0] ++
  bytes_of [0; 0; 0; 0] ++ bytes_of [0; 0; 0; 0] ++
  ptp_string_of "Canon" ++ ptp_string_of "Canon EOS R7" ++ ptp_string_of "1.0.0".

(** A protocol string of two characters whose terminator is the lone high
    surrogate 0xD800: the letter A, then the code unit 0xD800. *)
Definition sample_bad_terminator : bytes := bytes_of [2; 0x41; 0; 0x00; 0xD8].

(** The count byte [data[offset]] of a protocol string. *)
Definition count_byte_at (data : bytes) (offset : Z) : Z :=
  byte_val (nth (Z.to_nat offset) data x00).

(** ** Names for the header fields of a container

    [pkt_len, pkt_type, pkt_code, pkt_tid] as [send_command] unpacks them
    from the first 12 bytes of what it read. *)
Definition pkt_len_of (raw : bytes) : Z := le_uint (slice raw 0 4).
Definition pkt_type_of (raw : bytes) : Z := le_uint (slice raw 4 6).
Definition pkt_code_of (raw : bytes) : Z := le_uint (slice raw 6 8).
Definition pkt_tid_of (raw : bytes) : Z := le_uint (slice raw 8 12).

(** The packets written to the bulk-out endpoint so far. *)
Definition sent_of (self : USBTransport) : list bytes :=
  match out_ep self with
  | Some ep => sent ep
  | None => []
  end.

(** A connected transport whose writes will succeed, whose transaction id
    fits the header, and whose device will answer with [reads]. *)
Definition awaiting (self : USBTransport) (reads : list usb_read) : Prop :=
  in_ep self = Some (mkInEndpoint reads) /\
  (exists ep, out_ep self = Some ep /\ faults ep = []) /\
  fits 32 (_transaction_id self) = true.

(** A Data container that declares 13 bytes, a second one that declares 14,
    and the response. *)
Definition sample_two_data : list usb_read :=
  [ReadOk (data_container GET_EVENT 0 (bytes_of [7]));
   ReadOk (data_container GET_EVENT 0 (bytes_of [8; 9]));
   ReadOk (response_container OK 0)].

(** A Data container whose length field is 4, less than its own header,
    with 20 bytes after the header, and the response. *)
Definition sample_short_length : list usb_read :=
  [ReadOk (le_bytes 4 4 ++ le_bytes 2 DATA ++ le_bytes 2 GET_EVENT ++ le_bytes 4 0 ++
           bytes_of [1; 2; 3; 4; 5; 6; 7; 8; 9; 10; 11; 12; 13; 14; 15; 16; 17; 18; 19; 20]);
   ReadOk (response_container OK 0)].

(** A Data container that declares 10 payload bytes and arrives in three
    reads, the last one padded with two more bytes, then the response. *)
Definition sample_first_read : bytes :=
  le_bytes 4 22 ++ le_bytes 2 DATA ++ le_bytes 2 GET_EVENT ++ le_bytes 4 0 ++
  bytes_of [1; 2; 3; 4].

Definition sample_three_reads : list usb_read :=
  [ReadOk sample_first_read;
   ReadOk (bytes_of [5; 6; 7; 8]);
   ReadOk (bytes_of [9; 10; 0; 0]);
   ReadOk (response_container OK 0)].

(** ** What one call leaves behind

    [self'] is the transport [self] somewhere inside, or after, one call of
    [send_command]: the counter is one past the id the call drew, both
    endpoints are still there, and [new] are the packets the call has
    written so far. *)
Definition during_call (self self' : USBTransport) (new : list bytes) : Prop :=
  _transaction_id self' = _transaction_id self + 1 /\
  in_ep self' <> None /\ out_ep self' <> None /\
  sent_of self' = sent_of self ++ new.

(** The packets of one call that drew [tid]: none, or a Command container,
    or a Command container and a Data container, each with that id and the
    operation code of the call. *)
Definition packets_of_call (op tid : Z) (new : list bytes) : Prop :=
  match new with
  | [] => True
  | [cmd] =>
      pkt_type_of cmd = COMMAND /\ pkt_code_of cmd = op /\ pkt_tid_of cmd = tid
  | [cmd; dat] =>
      (pkt_type_of cmd = COMMAND /\ pkt_code_of cmd = op /\ pkt_tid_of cmd = tid) /\
      (pkt_type_of dat = DATA /\ pkt_code_of dat = op /\ pkt_tid_of dat = tid)
  | _ => False
  end.

(** A transport whose device answers OpenSession with OK. *)
Definition sample_open_transport : USBTransport :=
  mkUSBTransport (Some (mkInEndpoint [ReadOk (response_container OK 41)]))
                 (Some (mkOutEndpoint [] [])) 41.

(** ** The Command container on the wire

    The layout the comment in [send_command] gives: length (4) + type (2) +
    code (2) + tid (4) + params, every field little-endian, every parameter
    a u32. *)
Definition command_packet (operation_code tid : Z) (params : list Z) : bytes :=
  le_bytes 4 (12 + 4 * len params) ++ le_bytes 2 COMMAND ++
  le_bytes 2 operation_code ++ le_bytes 4 tid ++ flat_map (le_bytes 4) params.

(** What the [except usb.core.USBError] around the read loop makes of the
    loop's outcome. *)
Definition as_receive_failure {A : Type} (r : result A) : result A :=
  match r with
  | Raise USBError => Raise (USBTransportError FailedToReceiveResponse)
  | _ => r
  end.

(** The reads still pending on the bulk-in endpoint. *)
Definition pending_of (self : USBTransport) : list usb_read :=
  match in_ep self with
  | Some ep => pending ep
  | None => []
  end.

(** A connected transport whose next write will not fail, whose transaction
    id fits the header field, and whose device will answer with [reads];
    [oep] is its bulk-out endpoint. *)
Definition ready (self : USBTransport) (reads : list usb_read) (oep : OutEndpoint)
  : Prop :=
  in_ep self = Some (mkInEndpoint reads) /\
  out_ep self = Some oep /\
  hd false (faults oep) = false /\
  fits 32 (_transaction_id self) = true.

(** The transport after a call that wrote [packet] and left [reads] pending. *)
Definition after_call (self : USBTransport) (oep : OutEndpoint) (packet : bytes)
    (reads : list usb_read) : USBTransport :=
  mkUSBTransport (Some (mkInEndpoint reads))
                 (Some (mkOutEndpoint (sent oep ++ [packet]) (tl (faults oep))))
                 (_transaction_id self + 1).

(** Parameters that all fit a u32 field, few enough for the length field. *)
Definition u32_params (params : list Z) : Prop :=
  Forall (fun p => fits 32 p = true) params /\ 12 + 4 * len params < 2 ^ 32.

(** A transport at id 0 whose device answers one command with OK. *)
Definition sample_ok_transport : USBTransport :=
  sample_transport [ReadOk (response_container OK 0)].

(** A Response container with response code [code]. *)
Definition response_with (code : Z) (raw : bytes) : Prop :=
  12 <= len raw /\ pkt_type_of raw = RESPONSE /\ pkt_code_of raw = code.

(** A transport at id 9 whose device answers three commands with OK. *)
Definition sample_session_transport : USBTransport :=
  mkUSBTransport (Some (mkInEndpoint [ReadOk (response_container OK 9);
                                      ReadOk (response_container OK 0);
                                      ReadOk (response_container OK 1)]))
                 (Some (mkOutEndpoint [] [])) 9.

(** An event as [_parse_event_data] can yield it: a u32 property code with
    a u32 integer, or with raw bytes that are neither empty nor 4 long. *)
Definition well_formed_event (e : EOSPropertyValue) : Prop :=
  0 <= property_code e < 2 ^ 32 /\
  match value e with
  | VInt n => 0 <= n < 2 ^ 32
  | VBytes b => b <> [] /\ len b <> 4
  end.

(** ** Protocol strings on the wire

    A character of the Basic Multilingual Plane that is not a surrogate:
    one UTF-16 code unit. *)
Definition bmp_char (u : Z) : Prop :=
  0 <= u < 0xD800 \/ 0xE000 <= u < 0x10000.

(** The UTF-16LE code units of such characters, low byte first. *)
Definition utf16le_units (s : str) : bytes :=
  flat_map (fun u => [byte_of_Z (u mod 256); byte_of_Z (u / 256)]) s.

(** A protocol string as the docstring of [_read_ptp_string] describes it:
    the count byte (characters and terminator), the characters, and the
    two bytes [t0 t1] in the place of the terminator. *)
Definition ptp_encode (s : str) (t0 t1 : byte) : bytes :=
  byte_of_Z (len s + 1) :: utf16le_units s ++ [t0; t1].

(** A device-info dataset whose first array claims 0xFFFFFFFF elements. *)
Definition sample_overrun_info : bytes :=
  bytes_of [100; 0;  0x0B; 0; 0; 0;  100; 0] ++ bytes_of [0] ++ bytes_of [0; 0] ++
  bytes_of [255; 255; 255; 255] ++ ptp_string_of "Canon".

(** ** The device-info dataset on the wire

    An array as [_skip_uint16_array] expects it: a u32 element count, then
    two bytes per element. *)
Definition uint16_array (a : list Z) : bytes :=
  le_bytes 4 (len a) ++ flat_map (le_bytes 2) a.

(** A string the count byte can describe: at most 254 characters, each one
    code unit. *)
Definition ptp_text (s : str) : Prop := Forall bmp_char s /\ len s <= 254.

(** The dataset in the layout the comments of [_parse_device_info] give:
    [head] stands for standard version, vendor extension id and version (8
    bytes), [desc] is the vendor extension description, [mode] the
    functional mode (2 bytes), [arrays] the arrays of operations, events,
    properties, capture formats and image formats, and [tail] whatever
    follows the device version. *)
Definition device_info_dataset (head : bytes) (desc : str) (mode : bytes)
    (arrays : list (list Z)) (info : DeviceInfo) (tail : bytes) : bytes :=
  head ++ ptp_encode desc x00 x00 ++ mode ++ flat_map uint16_array arrays ++
  ptp_encode (manufacturer info) x00 x00 ++ ptp_encode (model info) x00 x00 ++
  ptp_encode (device_version info) x00 x00 ++ tail.

(** ** Where the parsing loop stands

    The offsets at which the loop of [_parse_event_data] starts a pass: 0,
    and every offset a pass moves on to. *)
Inductive reaches (data : bytes) : Z -> Prop :=
| reaches_start : reaches data 0
| reaches_next (offset offset' : Z) (evs : list EOSPropertyValue) :
    reaches data offset ->
    event_iteration data offset = Ok (Advance evs offset') ->
    reaches data offset'.

(** * Properties *)

(** ** Lengths and slices *)

Lemma len_nonneg {A : Type} (l : list A) : 0 <= len l.
Proof. unfold len. lia. Qed.

Lemma len_app {A : Type} (l1 l2 : list A) : len (l1 ++ l2) = len l1 + len l2.
Proof. unfold len. rewrite length_app. lia. Qed.

Lemma len_nil_iff {A : Type} (l : list A) : len l = 0 <-> l = [].
Proof.
  unfold len. destruct l as [|x l]; cbn [length]; split; intro H;
    try reflexivity; try discriminate; lia.
Qed.

(** With indices that are not negative, a slice is a [firstn] of a [skipn]:
    the clamping to the length is what these two do anyway. *)
Lemma slice_nonneg {A : Type} (l : list A) (a b : Z) :
  0 <= a -> 0 <= b ->
  slice l a b = firstn (Z.to_nat (b - a)) (skipn (Z.to_nat a) l).
Proof.
  intros Ha Hb. unfold slice, clamp_index.
  destruct (a <? 0) eqn:Ea; [apply Z.ltb_lt in Ea; lia|].
  destruct (b <? 0) eqn:Eb; [apply Z.ltb_lt in Eb; lia|].
  pose proof (len_nonneg l) as Hl.
  destruct (Z_le_gt_dec a (len l)) as [Hal|Hal].
  - rewrite (Z.min_l a) by lia.
    destruct (Z_le_gt_dec b (len l)) as [Hbl|Hbl].
    + rewrite Z.min_l by lia. reflexivity.
    + rewrite Z.min_r by lia.
      rewrite !firstn_all2; [reflexivity| |];
        rewrite length_skipn; unfold len in *; lia.
  - rewrite (Z.min_r a) by lia.
    rewrite !skipn_all2 by (unfold len in *; lia).
    rewrite !firstn_nil. reflexivity.
Qed.

Lemma len_slice {A : Type} (l : list A) (a b : Z) :
  0 <= a -> 0 <= b ->
  len (slice l a b) = Z.max 0 (Z.min (b - a) (len l - a)).
Proof.
  intros Ha Hb. rewrite slice_nonneg by assumption.
  unfold len. rewrite length_firstn, length_skipn. lia.
Qed.

Lemma slice_from_nonneg {A : Type} (l : list A) (a : Z) :
  0 <= a -> slice_from l a = skipn (Z.to_nat a) l.
Proof.
  intro Ha. unfold slice_from.
  rewrite slice_nonneg by (try assumption; apply len_nonneg).
  apply firstn_all2. rewrite length_skipn. unfold len. lia.
Qed.

Lemma len_slice_from {A : Type} (l : list A) (a : Z) :
  0 <= a -> len (slice_from l a) = Z.max 0 (len l - a).
Proof.
  intro Ha. rewrite slice_from_nonneg by assumption.
  unfold len. rewrite length_skipn. lia.
Qed.

Lemma slice_to_nonneg {A : Type} (l : list A) (n : Z) :
  0 <= n -> slice_to l n = firstn (Z.to_nat n) l.
Proof.
  intro Hn. unfold slice_to. rewrite slice_nonneg by lia.
  cbn [Z.to_nat skipn]. rewrite Z.sub_0_r. reflexivity.
Qed.

Lemma len_slice_to {A : Type} (l : list A) (n : Z) :
  0 <= n <= len l -> len (slice_to l n) = n.
Proof.
  intro Hn. rewrite slice_to_nonneg by lia.
  unfold len in *. rewrite length_firstn. lia.
Qed.

(** A slice of a slice is a slice of the whole. *)
Lemma slice_slice {A : Type} (l : list A) (a b c d : Z) :
  0 <= a -> 0 <= c <= d -> a + d <= b ->
  slice (slice l a b) c d = slice l (a + c) (a + d).
Proof.
  intros Ha Hcd Hb.
  rewrite (slice_nonneg l a b), slice_nonneg, (slice_nonneg l (a + c)) by lia.
  rewrite skipn_firstn_comm, firstn_firstn, skipn_skipn.
  replace (Z.to_nat c + Z.to_nat a)%nat with (Z.to_nat (a + c)) by lia.
  f_equal. lia.
Qed.

Lemma slice_all {A : Type} (l : list A) (n : Z) :
  len l <= n -> slice l 0 n = l.
Proof.
  intro Hn. pose proof (len_nonneg l).
  rewrite slice_nonneg by lia. cbn [Z.to_nat skipn].
  apply firstn_all2. unfold len in *. lia.
Qed.

Lemma bind_result_Ok {A B : Type} (r : result A) (k : A -> result B) (b : B) :
  bind_result r k = Ok b -> exists a, r = Ok a /\ k a = Ok b.
Proof. destruct r as [a|e]; cbn; [eauto|discriminate]. Qed.

Lemma le_uint_nonneg (bs : bytes) : 0 <= le_uint bs.
Proof.
  induction bs as [|b bs IH]; cbn [le_uint]; [lia|].
  pose proof (N2Z.is_nonneg (Byte.to_N b)). unfold byte_val. lia.
Qed.

Lemma le_uint_lt (bs : bytes) : le_uint bs < 256 ^ len bs.
Proof.
  induction bs as [|b bs IH]; cbn [le_uint].
  - cbn. lia.
  - replace (len (b :: bs)) with (Z.succ (len bs)) by (unfold len; cbn [length]; lia).
    rewrite Z.pow_succ_r by apply len_nonneg.
    pose proof (Byte.to_N_bounded b) as Hb.
    assert (byte_val b < 256) by (unfold byte_val; lia).
    lia.
Qed.

(** ** [struct.unpack_from] inside the buffer *)

Lemma unpack_start_ok (size : Z) (data : bytes) (offset : Z) :
  0 <= offset -> offset + size <= len data ->
  unpack_start size data offset = Ok offset.
Proof.
  intros Ho Hs. unfold unpack_start.
  destruct (offset <? 0) eqn:E; [apply Z.ltb_lt in E; lia|].
  replace (0 <=? offset) with true by (symmetry; apply Z.leb_le; lia).
  replace (offset + size <=? len data) with true by (symmetry; apply Z.leb_le; lia).
  reflexivity.
Qed.

Lemma unpack_from_II_ok (data : bytes) (offset : Z) :
  0 <= offset -> offset + 8 <= len data ->
  unpack_from_II data offset =
  Ok (le_uint (slice data offset (offset + 4)),
      le_uint (slice data (offset + 4) (offset + 8))).
Proof.
  intros Ho Hs. unfold unpack_from_II.
  rewrite unpack_start_ok by assumption. reflexivity.
Qed.

Lemma unpack_from_I_ok (data : bytes) (offset : Z) :
  0 <= offset -> offset + 4 <= len data ->
  unpack_from_I data offset = Ok (le_uint (slice data offset (offset + 4))).
Proof.
  intros Ho Hs. unfold unpack_from_I.
  rewrite unpack_start_ok by assumption. reflexivity.
Qed.

(** ** The event stream of [get_event] *)

Lemma event_loop_eq (data : bytes) (offset : Z) :
  event_loop data offset =
  match event_iteration data offset with
  | Raise e => Raise e
  | Ok Halt => Ok []
  | Ok (Advance evs offset') =>
      let* rest := event_loop data offset' in Ok (evs ++ rest)
  end.
Proof.
  simp event_loop. unfold inspect.
  generalize (@eq_refl _ (event_iteration data offset)).
  generalize (event_iteration data offset) at 2 4 5.
  intros r Hr. destruct r as [[|evs o']|e]; simp event_loop; reflexivity.
Qed.

Lemma decode_prop_record_eq (data : bytes) (offset : Z) :
  0 <= offset ->
  decode_prop_record data offset (record_len_at data offset) =
  Ok (spec_property_events data offset).
Proof.
  intro Ho. unfold decode_prop_record, spec_property_events, payload_at.
  fold (record_data_at data offset).
  set (rd := record_data_at data offset).
  pose proof (len_nonneg rd) as Hrd.
  pose proof (len_slice_from rd 4 ltac:(lia)) as Hp.
  destruct (4 <=? len rd) eqn:E4.
  - apply Z.leb_le in E4.
    rewrite unpack_from_I_ok by lia. cbn [bind_result Z.add].
    destruct (len (slice_from rd 4) =? 4) eqn:E.
    + unfold unpack_I. rewrite E. reflexivity.
    + destruct (0 <? len (slice_from rd 4)); reflexivity.
  - apply Z.leb_gt in E4.
    replace (len (slice_from rd 4)) with 0 by lia. reflexivity.
Qed.

Lemma event_iteration_eq (data : bytes) (offset : Z) :
  0 <= offset ->
  event_iteration data offset =
  if offset + 8 <=? len data then
    if (record_len_at data offset =? 0) || (event_code_at data offset =? 0)
    then Ok Halt
    else Ok (Advance (if event_code_at data offset =? PROP_VALUE_CHANGED
                      then spec_property_events data offset else [])
                     (offset + record_len_at data offset))
  else Ok Halt.
Proof.
  intro Ho. unfold event_iteration.
  destruct (offset + 8 <=? len data) eqn:E8; [|reflexivity].
  apply Z.leb_le in E8.
  rewrite unpack_from_II_ok by assumption. cbn [bind_result].
  fold (record_len_at data offset) (event_code_at data offset).
  destruct ((record_len_at data offset =? 0) || (event_code_at data offset =? 0));
    [reflexivity|].
  destruct (event_code_at data offset =? PROP_VALUE_CHANGED); [|reflexivity].
  rewrite decode_prop_record_eq by assumption. reflexivity.
Qed.

Lemma record_len_at_nonneg (data : bytes) (offset : Z) : 0 <= record_len_at data offset.
Proof. apply le_uint_nonneg. Qed.

(** From an offset that is not negative the loop returns a list: it raises
    nothing and it ends. *)
Lemma event_loop_total (data : bytes) (offset : Z) :
  0 <= offset -> exists evs, event_loop data offset = Ok evs.
Proof.
  remember (Z.to_nat (len data - offset)) as n eqn:Hn.
  revert offset Hn.
  induction n as [n IH] using lt_wf_ind. intros offset Hn Ho.
  rewrite event_loop_eq, event_iteration_eq by assumption.
  destruct (offset + 8 <=? len data) eqn:E8; [|exists []; reflexivity].
  apply Z.leb_le in E8.
  destruct ((record_len_at data offset =? 0) || (event_code_at data offset =? 0)) eqn:Ez;
    [exists []; reflexivity|].
  apply orb_false_iff in Ez. destruct Ez as [EL _]. apply Z.eqb_neq in EL.
  pose proof (record_len_at_nonneg data offset) as HL.
  destruct (IH (Z.to_nat (len data - (offset + record_len_at data offset)))
               ltac:(lia) (offset + record_len_at data offset) eq_refl ltac:(lia))
    as [rest Hrest].
  rewrite Hrest. cbn [bind_result]. eexists. reflexivity.
Qed.

(** C3: from any offset that the loop can reach, event-record parsing leaves
    the loop exactly when the record length [L] is 0, the event code is 0, or
    fewer than 8 bytes remain, and then yields nothing more; a record whose
    event code is not 0xC189 yields no event and parsing goes on at
    [offset + L]. *)
Theorem event_parsing_halts_exactly (data : bytes) (offset : Z) :
  0 <= offset ->
  (event_iteration data offset = Ok Halt <->
     record_len_at data offset = 0 \/ event_code_at data offset = 0 \/
     len data - offset < 8)
  /\ (event_iteration data offset = Ok Halt -> event_loop data offset = Ok [])
  /\ (event_iteration data offset <> Ok Halt ->
      event_code_at data offset <> 0xC189 ->
      event_iteration data offset =
        Ok (Advance [] (offset + record_len_at data offset))
      /\ event_loop data offset =
         event_loop data (offset + record_len_at data offset)).
Proof.
  intro Ho.
  assert (Hstep := event_iteration_eq data offset Ho).
  split; [|split].
  - rewrite Hstep.
    destruct (offset + 8 <=? len data) eqn:E8.
    + apply Z.leb_le in E8.
      destruct (record_len_at data offset =? 0) eqn:EL;
        [apply Z.eqb_eq in EL|apply Z.eqb_neq in EL];
        (destruct (event_code_at data offset =? 0) eqn:EC;
          [apply Z.eqb_eq in EC|apply Z.eqb_neq in EC]);
        cbn [orb]; split; intro H;
        try reflexivity; try discriminate; try tauto.
      destruct H as [H|[H|H]]; [contradiction|contradiction|lia].
    + apply Z.leb_gt in E8. split; intro H; [right; right; lia|reflexivity].
  - intro H. rewrite event_loop_eq, H. reflexivity.
  - intros Hgo Hcode.
    assert (Hadv : event_iteration data offset =
                   Ok (Advance [] (offset + record_len_at data offset))).
    { rewrite Hstep in Hgo |- *.
      destruct (offset + 8 <=? len data); [|contradiction].
      destruct ((record_len_at data offset =? 0) || (event_code_at data offset =? 0));
        [contradiction|].
      destruct (event_code_at data offset =? PROP_VALUE_CHANGED) eqn:E;
        [apply Z.eqb_eq in E; contradiction|reflexivity]. }
    split; [exact Hadv|].
    rewrite (event_loop_eq data offset), Hadv.
    destruct (event_loop data (offset + record_len_at data offset)); reflexivity.
Qed.

Lemma event_parsing_halts_exactly_witness :
  (event_iteration sample_mixed 0 = Ok Halt <->
     record_len_at sample_mixed 0 = 0 \/ event_code_at sample_mixed 0 = 0 \/
     len sample_mixed - 0 < 8)
  /\ (event_iteration sample_mixed 0 = Ok Halt -> event_loop sample_mixed 0 = Ok [])
  /\ (event_iteration sample_mixed 0 <> Ok Halt ->
      event_code_at sample_mixed 0 <> 0xC189 ->
      event_iteration sample_mixed 0 =
        Ok (Advance [] (0 + record_len_at sample_mixed 0))
      /\ event_loop sample_mixed 0 =
         event_loop sample_mixed (0 + record_len_at sample_mixed 0)).
Proof. apply (event_parsing_halts_exactly sample_mixed 0). lia. Defined.

Lemma reaches_nonneg (data : bytes) (offset : Z) :
  reaches data offset -> 0 <= offset.
Proof.
  induction 1 as [|offset offset' evs _ IH Hit]; [lia|].
  rewrite event_iteration_eq in Hit by assumption.
  destruct (offset + 8 <=? len data); [|discriminate].
  destruct ((record_len_at data offset =? 0) || (event_code_at data offset =? 0));
    [discriminate|].
  injection Hit as _ <-. pose proof (record_len_at_nonneg data offset). lia.
Qed.

(** What [_parse_event_data] returns is what the passes before a reached
    offset yielded, then what the loop yields from that offset on. *)
Lemma reaches_prefix (data : bytes) (offset : Z) :
  reaches data offset ->
  exists before, forall rest,
    event_loop data offset = Ok rest ->
    _parse_event_data data = Ok (before ++ rest).
Proof.
  induction 1 as [|offset offset' evs _ [before IH] Hit].
  - exists []. intros rest H. exact H.
  - exists (before ++ evs). intros rest Hrest.
    rewrite <- app_assoc. apply IH.
    rewrite event_loop_eq, Hit, Hrest. reflexivity.
Qed.

(** C4: for a property-value-changed record that parsing reaches, a value
    payload (the record data after the 4-byte property code) of exactly 4
    bytes gives one event with the integer variant, the little-endian u32 of
    those bytes; a non-empty payload of any other length gives one event
    with the raw-bytes variant; an empty payload gives no event.  The event
    is what the loop yields first from that record on, and it stands in the
    list that [_parse_event_data] returns, between the events of the records
    before and those of the records after. *)
Theorem property_value_variant (data : bytes) (offset : Z) :
  0 <= offset -> offset + 8 <= len data ->
  record_len_at data offset <> 0 ->
  event_code_at data offset = 0xC189 ->
  let prop_code := le_uint (slice (record_data_at data offset) 0 4) in
  let payload := payload_at data offset in
  let offset' := offset + record_len_at data offset in
  exists after,
    event_loop data offset' = Ok after
    /\ (len payload = 4 ->
       event_iteration data offset =
         Ok (Advance [mkEOSPropertyValue prop_code (VInt (le_uint payload))] offset')
       /\ 0 <= le_uint payload < 2 ^ 32
       /\ event_loop data offset =
           Ok (mkEOSPropertyValue prop_code (VInt (le_uint payload)) :: after))
    /\ (len payload <> 4 -> payload <> [] ->
       event_iteration data offset =
         Ok (Advance [mkEOSPropertyValue prop_code (VBytes payload)] offset')
       /\ event_loop data offset =
           Ok (mkEOSPropertyValue prop_code (VBytes payload) :: after))
    /\ (payload = [] ->
       event_iteration data offset = Ok (Advance [] offset')
       /\ event_loop data offset = Ok after)
    /\ (reaches data offset ->
       exists before,
         (len payload = 4 ->
            _parse_event_data data =
              Ok (before ++
                  mkEOSPropertyValue prop_code (VInt (le_uint payload)) :: after))
         /\ (len payload <> 4 -> payload <> [] ->
            _parse_event_data data =
              Ok (before ++ mkEOSPropertyValue prop_code (VBytes payload) :: after))
         /\ (payload = [] -> _parse_event_data data = Ok (before ++ after))).
Proof.
  intros Ho H8 HL Hcode prop_code payload offset'.
  assert (Hstep : event_iteration data offset =
                  Ok (Advance (spec_property_events data offset) offset')).
  { rewrite event_iteration_eq by assumption.
    replace (offset + 8 <=? len data) with true by (symmetry; apply Z.leb_le; lia).
    rewrite Hcode.
    replace (record_len_at data offset =? 0) with false
      by (symmetry; apply Z.eqb_neq; assumption).
    reflexivity. }
  pose proof (record_len_at_nonneg data offset) as HL0.
  destruct (event_loop_total data offset' ltac:(unfold offset'; lia)) as [after Hafter].
  assert (Hloop : event_loop data offset =
                  Ok (spec_property_events data offset ++ after)).
  { rewrite event_loop_eq, Hstep, Hafter. reflexivity. }
  assert (Hint : len payload = 4 ->
            spec_property_events data offset =
            [mkEOSPropertyValue prop_code (VInt (le_uint payload))]).
  { intro H4. unfold spec_property_events. fold payload prop_code.
    rewrite H4. reflexivity. }
  assert (Hbytes : len payload <> 4 -> payload <> [] ->
            spec_property_events data offset =
            [mkEOSPropertyValue prop_code (VBytes payload)]).
  { intros Hn4 Hne. unfold spec_property_events. fold payload prop_code.
    replace (len payload =? 4) with false by (symmetry; apply Z.eqb_neq; assumption).
    assert (0 < len payload).
    { pose proof (len_nonneg payload). pose proof (len_nil_iff payload).
      destruct (Z.eq_dec (len payload) 0); [tauto|lia]. }
    replace (0 <? len payload) with true by (symmetry; apply Z.ltb_lt; assumption).
    reflexivity. }
  assert (Hnone : payload = [] -> spec_property_events data offset = []).
  { intro Hnil. unfold spec_property_events. fold payload. rewrite Hnil. reflexivity. }
  exists after. split; [exact Hafter|].
  split; [|split; [|split]].
  - intro H4. rewrite Hstep, Hloop, (Hint H4). split; [reflexivity|].
    split; [|reflexivity].
    split; [apply le_uint_nonneg|].
    pose proof (le_uint_lt payload) as Hlt. rewrite H4 in Hlt.
    change (256 ^ 4) with (2 ^ 32) in Hlt. exact Hlt.
  - intros Hn4 Hne. rewrite Hstep, Hloop, (Hbytes Hn4 Hne). split; reflexivity.
  - intro Hnil. rewrite Hstep, Hloop, (Hnone Hnil). split; reflexivity.
  - intro Hreach. destruct (reaches_prefix data offset Hreach) as [before Hpre].
    exists before. specialize (Hpre _ Hloop).
    split; [|split].
    + intro H4. rewrite Hpre, (Hint H4). reflexivity.
    + intros Hn4 Hne. rewrite Hpre, (Hbytes Hn4 Hne). reflexivity.
    + intro Hnil. rewrite Hpre, (Hnone Hnil). reflexivity.
Qed.

Lemma property_value_variant_witness :
  exists before after,
    _parse_event_data sample_mixed =
    Ok (before ++ mkEOSPropertyValue 0xD101 (VInt 0x12345678) :: after).
Proof.
  destruct (property_value_variant sample_mixed 12)
    as (after & _ & _ & _ & _ & Hparse);
    [vm_compute; congruence|vm_compute; congruence|vm_compute; congruence
    |vm_compute; reflexivity|].
  destruct Hparse as (before & Hint & _).
  - apply (reaches_next sample_mixed 0 12 []); [apply reaches_start|].
    vm_compute. reflexivity.
  - exists before, after. apply Hint. vm_compute. reflexivity.
Defined.

Lemma record_data_in_bounds (data : bytes) (offset : Z) :
  0 <= offset ->
  record_data_at data offset =
    firstn (Z.to_nat (record_len_at data offset - 8))
           (skipn (Z.to_nat (offset + 8)) data)
  /\ len (record_data_at data offset) <= Z.max 0 (len data - (offset + 8)).
Proof.
  intro Ho. pose proof (record_len_at_nonneg data offset) as HL.
  unfold record_data_at. split.
  - rewrite slice_nonneg by lia. f_equal. lia.
  - rewrite len_slice by lia. lia.
Qed.

(** C10: event-record parsing is total: for every buffer it returns a list
    of events, raising nothing ([struct.error] is what reading past the end
    of the buffer would raise).  On every pass from a reachable offset the
    loop is left or goes on at an offset at least 1 larger; the record data
    is a prefix of the bytes that do follow the record header, so a record
    length [L] that exceeds the buffer gives a truncated slice; and a
    property-value-changed record with fewer than 4 bytes of record data
    yields no event. *)
Theorem event_parsing_total (data : bytes) :
  (exists evs, _parse_event_data data = Ok evs)
  /\ (forall offset, 0 <= offset ->
        event_iteration data offset = Ok Halt \/
        exists evs,
          event_iteration data offset =
            Ok (Advance evs (offset + record_len_at data offset))
          /\ 1 <= record_len_at data offset
          /\ offset + 8 <= len data)
  /\ (forall offset, 0 <= offset ->
        record_data_at data offset =
          firstn (Z.to_nat (record_len_at data offset - 8))
                 (skipn (Z.to_nat (offset + 8)) data)
        /\ len (record_data_at data offset) <= Z.max 0 (len data - (offset + 8)))
  /\ (forall offset, 0 <= offset ->
        event_iteration data offset <> Ok Halt ->
        event_code_at data offset = 0xC189 ->
        len (record_data_at data offset) < 4 ->
        event_iteration data offset =
          Ok (Advance [] (offset + record_len_at data offset))).
Proof.
  split; [|split; [|split]].
  - apply event_loop_total. lia.
  - intros offset Ho. rewrite event_iteration_eq by assumption.
    destruct (offset + 8 <=? len data) eqn:E8; [|left; reflexivity].
    apply Z.leb_le in E8.
    destruct ((record_len_at data offset =? 0) || (event_code_at data offset =? 0)) eqn:Ez;
      [left; reflexivity|].
    apply orb_false_iff in Ez. destruct Ez as [EL _]. apply Z.eqb_neq in EL.
    pose proof (record_len_at_nonneg data offset).
    right. eexists. split; [reflexivity|]. lia.
  - intros offset Ho. apply record_data_in_bounds. assumption.
  - intros offset Ho Hgo Hcode Hshort.
    rewrite event_iteration_eq in Hgo |- * by assumption.
    destruct (offset + 8 <=? len data); [|contradiction].
    destruct ((record_len_at data offset =? 0) || (event_code_at data offset =? 0));
      [contradiction|].
    rewrite Hcode. cbn [Z.eqb Pos.eqb PROP_VALUE_CHANGED].
    unfold spec_property_events, payload_at.
    rewrite len_slice_from by lia.
    pose proof (len_nonneg (record_data_at data offset)).
    replace (Z.max 0 (len (record_data_at data offset) - 4)) with 0 by lia.
    reflexivity.
Qed.

Lemma event_parsing_total_witness :
  (exists evs, _parse_event_data sample_mixed = Ok evs)
  /\ event_iteration sample_mixed 40 = Ok (Advance [] 80).
Proof.
  destruct (event_parsing_total sample_mixed) as (Htot & _ & _ & Hdrop).
  split; [exact Htot|].
  apply (Hdrop 40); vm_compute; congruence.
Defined.

(** ** [get_shutter_count] *)

Lemma unpack_II_counters (b : bytes) :
  16 <= len b ->
  unpack_II (slice b 8 16) = Ok (le_uint (slice b 8 12), le_uint (slice b 12 16)).
Proof.
  intro H16. unfold unpack_II.
  rewrite len_slice by lia.
  replace (Z.max 0 (Z.min (16 - 8) (len b - 8)) =? 8) with true
    by (symmetry; apply Z.eqb_eq; lia).
  rewrite !slice_slice by lia. reflexivity.
Qed.

Lemma scan_shutter_count_spec (events : list EOSPropertyValue) :
  scan_shutter_count events = Ok (spec_shutter_counters events).
Proof.
  unfold spec_shutter_counters.
  induction events as [|[code v] rest IH]; [reflexivity|].
  cbn [scan_shutter_count find property_code value].
  unfold is_counter_event at 1. cbn [property_code value].
  change 0xD167 with SHUTTER_RELEASE_COUNTER.
  destruct (code =? SHUTTER_RELEASE_COUNTER); cbn [andb]; [|exact IH].
  destruct v as [n|b]; [exact IH|].
  destruct (16 <=? len b) eqn:E16; [|exact IH].
  apply Z.leb_le in E16.
  rewrite unpack_II_counters by assumption. reflexivity.
Qed.

(** C1: whatever list of events [get_event] returns, [get_shutter_count]
    returns the pair of little-endian u32 values at byte offsets [8,12) and
    [12,16) of the value of the first event whose property code is 0xD167 and
    whose value is raw bytes of length at least 16, and nothing ([None]) when
    no event of the list is like that. *)
Theorem get_shutter_count_first_counter_event
    (self self' : USBTransport) (events : list EOSPropertyValue) :
  get_event self = (self', Ok events) ->
  get_shutter_count self = (self', Ok (spec_shutter_counters events)).
Proof.
  intro Hev. unfold get_shutter_count, bind. rewrite Hev.
  unfold lift. rewrite scan_shutter_count_spec. reflexivity.
Qed.

Lemma get_shutter_count_first_counter_event_witness :
  exists self',
    get_shutter_count sample_event_transport = (self', Ok (Some (150000, 150000))).
Proof.
  eexists.
  refine (get_shutter_count_first_counter_event sample_event_transport _
            [mkEOSPropertyValue 0xD167
               (VBytes (bytes_of [0; 0; 0; 0; 0; 0; 0; 0;
                                  0xF0; 0x49; 0x02; 0; 0xF0; 0x49; 0x02; 0]))] _).
  vm_compute. reflexivity.
Defined.

(** ** Protocol strings and the device-info dataset *)

Lemma getitem_ok (data : bytes) (i : Z) :
  0 <= i < len data ->
  getitem data i = Ok (byte_val (nth (Z.to_nat i) data x00)).
Proof.
  intros [H0 Hl]. unfold getitem.
  destruct (i <? 0) eqn:E; [apply Z.ltb_lt in E; lia|].
  replace (0 <=? i) with true by (symmetry; apply Z.leb_le; lia).
  replace (i <? len data) with true by (symmetry; apply Z.ltb_lt; lia).
  reflexivity.
Qed.

(** Strict decoding fails in one way only. *)
Lemma utf16le_decode_raises (b : bytes) (e : exn) :
  utf16le_decode b = Raise e -> e = UnicodeDecodeError.
Proof.
  remember (length b) as n eqn:Hn. revert b e Hn.
  induction n as [n IH] using lt_wf_ind. intros b e Hn H.
  destruct b as [|lo [|hi rest]]; cbn [utf16le_decode] in H;
    [discriminate|congruence|].
  cbn [length] in Hn.
  destruct (is_high_surrogate (code_unit lo hi)).
  - destruct rest as [|lo2 [|hi2 rest']]; [congruence|congruence|].
    cbn [length] in Hn.
    destruct (is_low_surrogate (code_unit lo2 hi2)); [|congruence].
    destruct (utf16le_decode rest') as [s|e'] eqn:E; cbn [bind_result] in H;
      [discriminate|].
    injection H as <-. apply (IH (length rest') ltac:(lia) rest' e' eq_refl E).
  - destruct (is_low_surrogate (code_unit lo hi)); [congruence|].
    destruct (utf16le_decode rest) as [s|e'] eqn:E; cbn [bind_result] in H;
      [discriminate|].
    injection H as <-. apply (IH (length rest) ltac:(lia) rest e' eq_refl E).
Qed.

Lemma except_UnicodeDecodeError_decode (b : bytes) :
  except_UnicodeDecodeError (utf16le_decode b) =
  Ok match utf16le_decode b with Ok s => s | Raise _ => [] end.
Proof.
  destruct (utf16le_decode b) as [s|e] eqn:E; [reflexivity|].
  apply utf16le_decode_raises in E. subst e. reflexivity.
Qed.

(** [_read_ptp_string] case by case; it raises nothing. *)
Lemma _read_ptp_string_eq (data : bytes) (offset : Z) :
  0 <= offset ->
  _read_ptp_string data offset =
  if len data <=? offset then Ok ([], offset)
  else
    let C := count_byte_at data offset in
    if C =? 0 then Ok ([], offset + 1)
    else if len data <? offset + 1 + C * 2 then Ok ([], offset + 1)
    else Ok (match utf16le_decode (slice data (offset + 1) (offset + 1 + C * 2 - 2)) with
             | Ok s => s
             | Raise _ => []
             end, offset + 1 + C * 2).
Proof.
  intro Ho. unfold _read_ptp_string.
  destruct (len data <=? offset) eqn:E; [reflexivity|].
  apply Z.leb_gt in E.
  rewrite getitem_ok by lia. cbn [bind_result].
  fold (count_byte_at data offset). cbv zeta.
  destruct (count_byte_at data offset =? 0); [reflexivity|].
  destruct (len data <? offset + 1 + count_byte_at data offset * 2); [reflexivity|].
  rewrite except_UnicodeDecodeError_decode. reflexivity.
Qed.

Lemma count_byte_at_nonneg (data : bytes) (offset : Z) : 0 <= count_byte_at data offset.
Proof.
  unfold count_byte_at, byte_val.
  pose proof (N2Z.is_nonneg (Byte.to_N (nth (Z.to_nat offset) data x00))). lia.
Qed.

(** C5 (as amended): with a count byte [C] at [offset], protocol-string
    decode returns the empty string and [offset + 1] when [C] is 0; when [C]
    is positive and [C * 2] bytes follow, it advances the offset by
    [1 + C * 2] and returns the UTF-16LE decoding of the first [(C - 1) * 2]
    of them, or the empty string if these [(C - 1) * 2] bytes are not valid
    UTF-16 (the two terminator bytes are never decoded); when [C * 2]
    exceeds the remaining buffer it returns the empty string with only the
    count byte consumed.  In no case does it raise. *)
Theorem read_ptp_string_cases (data : bytes) (offset : Z) :
  0 <= offset < len data ->
  let C := count_byte_at data offset in
  let body := slice data (offset + 1) (offset + 1 + C * 2) in
  (C = 0 -> _read_ptp_string data offset = Ok ([], offset + 1))
  /\ (0 < C -> offset + 1 + C * 2 <= len data ->
      len body = C * 2 /\
      (forall s, utf16le_decode (slice_to body ((C - 1) * 2)) = Ok s ->
         _read_ptp_string data offset = Ok (s, offset + 1 + C * 2)) /\
      (forall e, utf16le_decode (slice_to body ((C - 1) * 2)) = Raise e ->
         _read_ptp_string data offset = Ok ([], offset + 1 + C * 2)))
  /\ (0 < C -> len data < offset + 1 + C * 2 ->
      _read_ptp_string data offset = Ok ([], offset + 1)).
Proof.
  intros [Ho Hl] C body.
  assert (Heq := _read_ptp_string_eq data offset Ho). cbv zeta in Heq.
  fold C in Heq.
  replace (len data <=? offset) with false in Heq by (symmetry; apply Z.leb_gt; lia).
  split; [|split].
  - intro HC. rewrite Heq, HC. reflexivity.
  - intros HC Hfit.
    replace (C =? 0) with false in Heq by (symmetry; apply Z.eqb_neq; lia).
    replace (len data <? offset + 1 + C * 2) with false in Heq
      by (symmetry; apply Z.ltb_ge; lia).
    assert (Hpre : slice_to body ((C - 1) * 2) =
                   slice data (offset + 1) (offset + 1 + C * 2 - 2)).
    { unfold slice_to, body. rewrite slice_slice by lia.
      f_equal; lia. }
    rewrite Hpre. split; [|split].
    + unfold body. rewrite len_slice by lia. lia.
    + intros s Hs. rewrite Heq, Hs. reflexivity.
    + intros e He. rewrite Heq, He. reflexivity.
  - intros HC Hover.
    replace (C =? 0) with false in Heq by (symmetry; apply Z.eqb_neq; lia).
    replace (len data <? offset + 1 + C * 2) with true in Heq
      by (symmetry; apply Z.ltb_lt; lia).
    exact Heq.
Qed.

Lemma read_ptp_string_cases_witness :
  _read_ptp_string (bytes_of [3; 0x41; 0; 0x42; 0; 0; 0]) 0 = Ok ([0x41; 0x42], 7).
Proof.
  refine (proj1 (proj2 (proj1 (proj2 (read_ptp_string_cases
            (bytes_of [3; 0x41; 0; 0x42; 0; 0; 0]) 0 _)) _ _)) [0x41; 0x42] _);
    vm_compute; try split; congruence.
Defined.

(** C5 as the spec states its last case, that the string is empty whenever
    the [C * 2] bytes are not valid UTF-16, fails: with a count byte 2, the
    letter A and the lone surrogate 0xD800 as terminator, the four bytes are
    not valid UTF-16, and the decoded string is "A". *)
Lemma read_ptp_string_invalid_terminator :
  ~ (forall (data : bytes) (offset : Z),
       0 <= offset < len data ->
       let C := count_byte_at data offset in
       0 < C -> offset + 1 + C * 2 <= len data ->
       utf16le_decode (slice data (offset + 1) (offset + 1 + C * 2)) =
         Raise UnicodeDecodeError ->
       _read_ptp_string data offset = Ok ([], offset + 1 + C * 2)).
Proof.
  intro H. specialize (H sample_bad_terminator 0).
  assert (Hr : _read_ptp_string sample_bad_terminator 0 = Ok ([0x41], 5))
    by (vm_compute; reflexivity).
  rewrite Hr in H.
  assert (Hne : Ok ([0x41], 5) <> Ok (@nil Z, 0 + 1 + count_byte_at sample_bad_terminator 0 * 2))
    by (vm_compute; discriminate).
  apply Hne, H; vm_compute; try split; congruence.
Qed.

Lemma _read_ptp_string_total (data : bytes) (offset : Z) :
  0 <= offset ->
  exists s offset', _read_ptp_string data offset = Ok (s, offset') /\ offset <= offset'.
Proof.
  intro Ho. rewrite _read_ptp_string_eq by assumption. cbv zeta.
  pose proof (count_byte_at_nonneg data offset) as HC.
  destruct (len data <=? offset); [do 2 eexists; split; [reflexivity|lia]|].
  destruct (count_byte_at data offset =? 0); [do 2 eexists; split; [reflexivity|lia]|].
  destruct (len data <? offset + 1 + count_byte_at data offset * 2);
    do 2 eexists; (split; [reflexivity|lia]).
Qed.

Lemma _skip_uint16_array_eq (data : bytes) (offset : Z) :
  0 <= offset ->
  _skip_uint16_array data offset =
  Ok (if len data - offset <? 4 then offset
      else offset + 4 + le_uint (slice data offset (offset + 4)) * 2).
Proof.
  intro Ho. unfold _skip_uint16_array.
  destruct (len data <? offset + 4) eqn:E.
  - apply Z.ltb_lt in E.
    replace (len data - offset <? 4) with true by (symmetry; apply Z.ltb_lt; lia).
    reflexivity.
  - apply Z.ltb_ge in E.
    replace (len data - offset <? 4) with false by (symmetry; apply Z.ltb_ge; lia).
    rewrite unpack_from_I_ok by lia. reflexivity.
Qed.

Lemma _skip_uint16_array_total (data : bytes) (offset : Z) :
  0 <= offset ->
  exists offset', _skip_uint16_array data offset = Ok offset' /\ offset <= offset'.
Proof.
  intro Ho. rewrite _skip_uint16_array_eq by assumption.
  pose proof (le_uint_nonneg (slice data offset (offset + 4))).
  eexists. split; [reflexivity|].
  destruct (len data - offset <? 4); lia.
Qed.

(** C6: device-info decoding moves its offset in this order: from 8 it
    reads one protocol string (discarded), skips 2 bytes, skips five
    u32-count-prefixed arrays of 16-bit elements (a skip with fewer than 4
    bytes remaining leaves the offset as it is), then reads three protocol
    strings, which are manufacturer, model and device_version; and the
    buffer with five empty arrays and the strings "Canon", "Canon EOS R7",
    "1.0.0" decodes to these three strings. *)
Theorem device_info_decoding_order :
  (forall data : bytes,
     (forall offset, 0 <= offset ->
        _skip_uint16_array data offset =
          Ok (if len data - offset <? 4 then offset
              else offset + 4 + le_uint (slice data offset (offset + 4)) * 2))
     /\ exists s0 o1 a1 a2 a3 a4 a5 s1 o2 s2 o3 s3 o4,
          _read_ptp_string data 8 = Ok (s0, o1)
          /\ _skip_uint16_array data (o1 + 2) = Ok a1
          /\ _skip_uint16_array data a1 = Ok a2
          /\ _skip_uint16_array data a2 = Ok a3
          /\ _skip_uint16_array data a3 = Ok a4
          /\ _skip_uint16_array data a4 = Ok a5
          /\ _read_ptp_string data a5 = Ok (s1, o2)
          /\ _read_ptp_string data o2 = Ok (s2, o3)
          /\ _read_ptp_string data o3 = Ok (s3, o4)
          /\ _parse_device_info data = Ok (mkDeviceInfo s1 s2 s3))
  /\ _parse_device_info sample_device_info =
       Ok (mkDeviceInfo (str_of "Canon") (str_of "Canon EOS R7") (str_of "1.0.0")).
Proof.
  split; [|vm_compute; reflexivity].
  intro data. split; [intros offset Ho; apply _skip_uint16_array_eq; assumption|].
  destruct (_read_ptp_string_total data 8 ltac:(lia)) as (s0 & o1 & H0 & L0).
  destruct (_skip_uint16_array_total data (o1 + 2) ltac:(lia)) as (a1 & K1 & M1).
  destruct (_skip_uint16_array_total data a1 ltac:(lia)) as (a2 & K2 & M2).
  destruct (_skip_uint16_array_total data a2 ltac:(lia)) as (a3 & K3 & M3).
  destruct (_skip_uint16_array_total data a3 ltac:(lia)) as (a4 & K4 & M4).
  destruct (_skip_uint16_array_total data a4 ltac:(lia)) as (a5 & K5 & M5).
  destruct (_read_ptp_string_total data a5 ltac:(lia)) as (s1 & o2 & H1 & L1).
  destruct (_read_ptp_string_total data o2 ltac:(lia)) as (s2 & o3 & H2 & L2).
  destruct (_read_ptp_string_total data o3 ltac:(lia)) as (s3 & o4 & H3 & L3).
  exists s0, o1, a1, a2, a3, a4, a5, s1, o2, s2, o3, s3, o4.
  repeat (split; [assumption|]).
  unfold _parse_device_info. rewrite H0. cbn [bind_result skip_arrays].
  rewrite K1. cbn [bind_result]. rewrite K2. cbn [bind_result].
  rewrite K3. cbn [bind_result]. rewrite K4. cbn [bind_result].
  rewrite K5. cbn [bind_result]. rewrite H1. cbn [bind_result].
  rewrite H2. cbn [bind_result]. rewrite H3. reflexivity.
Qed.

Lemma device_info_decoding_order_witness :
  _skip_uint16_array sample_device_info 11 = Ok 15
  /\ _skip_uint16_array sample_device_info 100 = Ok 100.
Proof.
  split.
  - refine (proj1 (proj1 device_info_decoding_order sample_device_info) 11 _). lia.
  - refine (proj1 (proj1 device_info_decoding_order sample_device_info) 100 _). lia.
Defined.

(** ** Containers on the wire *)

Lemma len_le_bytes (n : nat) (v : Z) : len (le_bytes n v) = Z.of_nat n.
Proof.
  unfold len. f_equal. revert v.
  induction n as [|n IH]; intro v; cbn [le_bytes length]; [reflexivity|].
  rewrite IH. reflexivity.
Qed.

Lemma byte_val_of_Z (z : Z) : 0 <= z < 256 -> byte_val (byte_of_Z z) = z.
Proof.
  intro Hz. unfold byte_val, byte_of_Z.
  destruct (Byte.of_N (Z.to_N z)) as [b|] eqn:E.
  - apply Byte.to_of_N in E. rewrite E. lia.
  - apply Byte.of_N_None_iff in E. lia.
Qed.

(** Packing then unpacking an unsigned field gives the value back. *)
Lemma le_uint_le_bytes (n : nat) (v : Z) :
  0 <= v < 256 ^ Z.of_nat n -> le_uint (le_bytes n v) = v.
Proof.
  revert v. induction n as [|n IH]; intros v Hv; cbn [le_bytes le_uint].
  - cbn in Hv. lia.
  - rewrite Nat2Z.inj_succ, Z.pow_succ_r in Hv by lia.
    rewrite byte_val_of_Z by (apply Z.mod_pos_bound; lia).
    rewrite IH.
    + pose proof (Z.div_mod v 256). lia.
    + split; [apply Z.div_pos; lia|].
      apply Z.div_lt_upper_bound; lia.
Qed.

Lemma unpack_header (raw : bytes) :
  12 <= len raw ->
  unpack_IHHI (slice_to raw 12) =
  Ok (pkt_len_of raw, pkt_type_of raw, pkt_code_of raw, pkt_tid_of raw).
Proof.
  intro H12. unfold unpack_IHHI.
  rewrite len_slice_to by (pose proof (len_nonneg raw); lia).
  cbn [Z.eqb Pos.eqb]. unfold slice_to.
  rewrite !slice_slice by lia. reflexivity.
Qed.

(** ** The read loop of [send_command] *)

(** The local loop [more_data] of [receive] is [read_more], then the trim
    and the next pass of the outer loop. *)
Lemma receive_eq (raw : bytes) (rest : list usb_read) (response_data : bytes) :
  12 <= len raw ->
  receive (ReadOk raw :: rest) response_data =
  if pkt_type_of raw =? DATA then
    match read_more (pkt_len_of raw) rest (slice_from raw 12) with
    | (rest', Ok acc) => receive rest' (slice_to acc (pkt_len_of raw - 12))
    | (rest', Raise e) => (rest', Raise e)
    end
  else if pkt_type_of raw =? RESPONSE then (rest, Ok (pkt_code_of raw, response_data))
  else (rest, Raise (USBTransportError (UnexpectedPacketType (pkt_type_of raw)))).
Proof.
  intro H12. cbn [receive].
  replace (len raw <? 12) with false by (symmetry; apply Z.ltb_ge; lia).
  rewrite unpack_header by assumption.
  destruct (pkt_type_of raw =? DATA); [|reflexivity].
  generalize (slice_from raw 12) as acc.
  induction rest as [|r rest IH]; intro acc; cbn [read_more].
  - destruct (len acc + 12 <? pkt_len_of raw); reflexivity.
  - destruct (len acc + 12 <? pkt_len_of raw); [|reflexivity].
    destruct r as [more|]; [apply IH|reflexivity].
Qed.

(** What [except usb.core.USBError] makes of the outcome of the read loop. *)
Lemma send_command_awaiting (self : USBTransport) (reads : list usb_read) (op : Z) :
  awaiting self reads -> fits 16 op = true ->
  snd (send_command op None None self) =
  match snd (receive reads []) with
  | Raise USBError => Raise (USBTransportError FailedToReceiveResponse)
  | r => r
  end.
Proof.
  intros (Hin & (ep & Hout & Hf) & Htid) Hop.
  unfold send_command. rewrite Hin, Hout. cbn [is_None orb].
  unfold bind, transaction_id, lift, ret, except_USBError, out_ep_write,
    in_ep_receive.
  cbn [pack_params len length Z.of_nat Z.add in_ep out_ep _transaction_id].
  unfold pack_IHHI, pack_I, pack_H. rewrite Htid, Hop.
  change (fits 32 12) with true. change (fits 16 COMMAND) with true.
  cbn [bind_result in_ep out_ep _transaction_id]. rewrite Hout. rewrite Hf.
  cbn [in_ep out_ep _transaction_id]. rewrite Hin.
  cbn [in_ep out_ep _transaction_id pending].
  destruct (receive reads []) as [reads' [r|e]]; [reflexivity|].
  destruct e; reflexivity.
Qed.

(** A sample transport is connected, its writes succeed and its id fits. *)
Ltac sample_awaiting :=
  unfold awaiting, sample_transport;
  cbn [in_ep out_ep _transaction_id map app];
  split; [reflexivity|]; split; [|reflexivity];
  eexists; split; reflexivity.

(** C2 (as amended): in [send_command], once a Data container has been
    received and reassembled, the next container read ends the call with
    its code and the reassembled data if it is of type Response, and makes
    the call fail with the transport error for an unexpected packet type if
    it is of neither type Response nor type Data; a further Data container
    is accepted: the data reassembled so far is dropped and the call goes on
    as if that container had been the first one read. *)
Theorem container_after_data
    (self : USBTransport) (op : Z) (raw0 : bytes) (reads : list usb_read)
    (acc raw : bytes) (rest : list usb_read) :
  awaiting self (ReadOk raw0 :: reads) -> fits 16 op = true ->
  12 <= len raw0 -> pkt_type_of raw0 = DATA ->
  read_more (pkt_len_of raw0) reads (slice_from raw0 12) = (ReadOk raw :: rest, Ok acc) ->
  12 <= len raw ->
  (pkt_type_of raw = RESPONSE ->
     snd (send_command op None None self) =
       Ok (pkt_code_of raw, slice_to acc (pkt_len_of raw0 - 12)))
  /\ (pkt_type_of raw <> RESPONSE -> pkt_type_of raw <> DATA ->
     snd (send_command op None None self) =
       Raise (USBTransportError (UnexpectedPacketType (pkt_type_of raw))))
  /\ (pkt_type_of raw = DATA ->
     forall self2, awaiting self2 (ReadOk raw :: rest) ->
       snd (send_command op None None self) = snd (send_command op None None self2)).
Proof.
  intros Hself Hop H0 Ht0 Hmore H12.
  rewrite (send_command_awaiting self _ op Hself Hop).
  rewrite receive_eq by assumption.
  rewrite Ht0, Hmore. cbn [Z.eqb Pos.eqb DATA].
  rewrite receive_eq by assumption.
  split; [|split].
  - intro Hr. rewrite Hr. reflexivity.
  - intros Hnr Hnd.
    replace (pkt_type_of raw =? DATA) with false by (symmetry; apply Z.eqb_neq; assumption).
    replace (pkt_type_of raw =? RESPONSE) with false
      by (symmetry; apply Z.eqb_neq; assumption).
    reflexivity.
  - intros Hd self2 Hself2.
    rewrite (send_command_awaiting self2 _ op Hself2 Hop).
    rewrite receive_eq by assumption.
    rewrite Hd. reflexivity.
Qed.

Lemma container_after_data_witness :
  snd (send_command GET_EVENT None None (sample_transport sample_three_reads)) =
  Ok (OK, bytes_of [1; 2; 3; 4; 5; 6; 7; 8; 9; 10]).
Proof.
  refine (proj1 (container_after_data
            (sample_transport sample_three_reads) GET_EVENT sample_first_read
            [ReadOk (bytes_of [5; 6; 7; 8]); ReadOk (bytes_of [9; 10; 0; 0]);
             ReadOk (response_container OK 0)]
            (bytes_of [1; 2; 3; 4; 5; 6; 7; 8; 9; 10; 0; 0])
            (response_container OK 0) [] _ _ _ _ _ _) _);
    try (vm_compute; reflexivity); try (vm_compute; congruence).
  sample_awaiting.
Defined.

(** C2 as the spec states it, that any container other than a Response after
    the Data container makes [send_command] fail, does not hold: when a Data
    container declaring 13 bytes is followed by a second Data container and
    then by the response, the call returns the response code with the
    second container's data. *)
Lemma second_data_container_accepted :
  ~ (forall (self : USBTransport) (op : Z) (raw0 : bytes) (reads : list usb_read)
            (acc raw : bytes) (rest : list usb_read),
       awaiting self (ReadOk raw0 :: reads) -> fits 16 op = true ->
       12 <= len raw0 -> pkt_type_of raw0 = DATA ->
       read_more (pkt_len_of raw0) reads (slice_from raw0 12) =
         (ReadOk raw :: rest, Ok acc) ->
       12 <= len raw ->
       pkt_type_of raw <> RESPONSE ->
       exists e, snd (send_command op None None self) = Raise e).
Proof.
  intro H.
  destruct (H (sample_transport sample_two_data) GET_EVENT
              (data_container GET_EVENT 0 (bytes_of [7]))
              [ReadOk (data_container GET_EVENT 0 (bytes_of [8; 9]));
               ReadOk (response_container OK 0)]
              (bytes_of [7])
              (data_container GET_EVENT 0 (bytes_of [8; 9]))
              [ReadOk (response_container OK 0)]) as [e He];
    try (vm_compute; reflexivity); try (vm_compute; congruence).
  - sample_awaiting.
  - assert (Hr : snd (send_command GET_EVENT None None (sample_transport sample_two_data))
                 = Ok (OK, bytes_of [8; 9])) by (vm_compute; reflexivity).
    rewrite Hr in He. discriminate.
Qed.

(** ** Reassembly of a Data container *)

Lemma removelast_cons {A : Type} (x : A) (l : list A) :
  l <> [] -> removelast (x :: l) = x :: removelast l.
Proof. destruct l; [contradiction|reflexivity]. Qed.

(** When the reads [chunks] are the ones the loop needs (before the last of
    them the bytes are still short of the declared length, with it they
    reach it), the loop takes them all and nothing else. *)
Lemma read_more_chunks (pkt_len : Z) (chunks : list bytes) :
  forall (acc : bytes) (tail : list usb_read),
    (chunks <> [] -> len (acc ++ concat (removelast chunks)) + 12 < pkt_len) ->
    pkt_len <= len (acc ++ concat chunks) + 12 ->
    read_more pkt_len (map ReadOk chunks ++ tail) acc = (tail, Ok (acc ++ concat chunks)).
Proof.
  induction chunks as [|c cs IH]; intros acc tail Hbefore Hafter.
  - cbn [concat map app] in *. rewrite app_nil_r in *.
    replace (len acc + 12 <? pkt_len) with false
      by (symmetry; apply Z.ltb_ge; lia).
    destruct tail; cbn [read_more];
      replace (len acc + 12 <? pkt_len) with false
        by (symmetry; apply Z.ltb_ge; lia); reflexivity.
  - cbn [map app read_more concat].
    assert (Hshort : len acc + 12 < pkt_len).
    { specialize (Hbefore ltac:(discriminate)).
      rewrite len_app in Hbefore.
      pose proof (len_nonneg (concat (removelast (c :: cs)))). lia. }
    replace (len acc + 12 <? pkt_len) with true by (symmetry; apply Z.ltb_lt; lia).
    rewrite IH.
    + rewrite <- app_assoc. reflexivity.
    + intro Hne. specialize (Hbefore ltac:(discriminate)).
      rewrite removelast_cons in Hbefore by assumption.
      cbn [concat] in Hbefore. rewrite <- app_assoc. exact Hbefore.
    + cbn [concat] in Hafter. rewrite <- app_assoc. exact Hafter.
Qed.

(** C7 (as amended): when the first container read by [send_command] is a
    Data container whose declared length [pkt_len] is at least the 12 bytes
    of its header, further reads are appended until the accumulated payload
    reaches [pkt_len - 12] bytes, and the result is cut to its first
    [pkt_len - 12] bytes; if the container read next is the Response, the
    call returns exactly these [pkt_len - 12] bytes, however many reads
    [chunks] it took and whatever padding the last of them carried. *)
Theorem data_reassembled_to_declared_length
    (self : USBTransport) (op : Z) (raw0 : bytes) (chunks : list bytes)
    (resp : bytes) (rest : list usb_read) :
  awaiting self (ReadOk raw0 :: map ReadOk chunks ++ ReadOk resp :: rest) ->
  fits 16 op = true ->
  12 <= len raw0 -> pkt_type_of raw0 = DATA -> 12 <= pkt_len_of raw0 ->
  (chunks <> [] ->
     len (slice_from raw0 12 ++ concat (removelast chunks)) + 12 < pkt_len_of raw0) ->
  pkt_len_of raw0 <= len (slice_from raw0 12 ++ concat chunks) + 12 ->
  12 <= len resp -> pkt_type_of resp = RESPONSE ->
  let data := slice_to (slice_from raw0 12 ++ concat chunks) (pkt_len_of raw0 - 12) in
  snd (send_command op None None self) = Ok (pkt_code_of resp, data)
  /\ len data = pkt_len_of raw0 - 12
  /\ data = firstn (Z.to_nat (pkt_len_of raw0 - 12)) (slice_from raw0 12 ++ concat chunks).
Proof.
  intros Hself Hop H0 Ht0 Hlen Hbefore Hafter Hr Htr data.
  split; [|split].
  - rewrite (send_command_awaiting self _ op Hself Hop).
    rewrite receive_eq by assumption.
    rewrite Ht0. cbn [Z.eqb Pos.eqb DATA].
    rewrite read_more_chunks by assumption.
    rewrite receive_eq by assumption.
    rewrite Htr. reflexivity.
  - unfold data. apply len_slice_to. lia.
  - unfold data. apply slice_to_nonneg. lia.
Qed.

Lemma data_reassembled_to_declared_length_witness :
  snd (send_command GET_EVENT None None (sample_transport sample_three_reads)) =
    Ok (OK, bytes_of [1; 2; 3; 4; 5; 6; 7; 8; 9; 10])
  /\ len (bytes_of [1; 2; 3; 4; 5; 6; 7; 8; 9; 10]) = 22 - 12.
Proof.
  refine (let H := data_reassembled_to_declared_length
            (sample_transport sample_three_reads) GET_EVENT sample_first_read
            [bytes_of [5; 6; 7; 8]; bytes_of [9; 10; 0; 0]]
            (response_container OK 0) [] _ _ _ _ _ _ _ _ _ in
          conj (proj1 H) (proj1 (proj2 H)));
    try (vm_compute; reflexivity); try (vm_compute; congruence).
  sample_awaiting.
Defined.

(** C7 as the spec states it, that the returned data always has the
    declared length, fails in two ways.  A Data container whose length field
    is 4, below the size of its own header, and which carries 20 bytes is
    cut by [response_data[:4 - 12]] to its first 12 bytes.  And when a Data
    container declaring 13 bytes (1 of payload) is followed by a second Data
    container, the call returns the 2 bytes of the second one. *)
Lemma returned_data_not_declared_length :
  (exists code data,
     snd (send_command GET_EVENT None None (sample_transport sample_short_length)) =
       Ok (code, data)
     /\ len data = 12
     /\ pkt_len_of (le_bytes 4 4 ++ le_bytes 2 DATA ++ le_bytes 2 GET_EVENT ++
                    le_bytes 4 0 ++
                    bytes_of [1; 2; 3; 4; 5; 6; 7; 8; 9; 10; 11; 12; 13; 14; 15; 16;
                              17; 18; 19; 20]) - 12 = -8)
  /\ (exists code data,
     snd (send_command GET_EVENT None None (sample_transport sample_two_data)) =
       Ok (code, data)
     /\ len data = 2
     /\ pkt_type_of (data_container GET_EVENT 0 (bytes_of [7])) = DATA
     /\ pkt_len_of (data_container GET_EVENT 0 (bytes_of [7])) - 12 = 1).
Proof.
  split.
  - exists OK, (bytes_of [1; 2; 3; 4; 5; 6; 7; 8; 9; 10; 11; 12]).
    vm_compute. repeat split; reflexivity.
  - exists OK, (bytes_of [8; 9]).
    vm_compute. repeat split; reflexivity.
Qed.

(** ** Closing the session *)

(** C9: [close_session] never raises: whatever the CloseSession exchange
    does (a transport or protocol failure raised by [send_command], or a
    response with any code), [close_session] returns normally, leaving the
    transport as the exchange left it. *)
Theorem close_session_never_raises (self : USBTransport) :
  snd (close_session self) = Ok tt
  /\ fst (close_session self) = fst (send_command CLOSE_SESSION None None self).
Proof.
  unfold close_session, except_Exception_pass.
  destruct (send_command CLOSE_SESSION None None self) as [self' r].
  split; reflexivity.
Qed.

(** ** Transaction ids *)

Lemma slice_app_middle {A : Type} (a b c : list A) :
  slice (a ++ b ++ c) (len a) (len a + len b) = b.
Proof.
  pose proof (len_nonneg a). pose proof (len_nonneg b).
  rewrite slice_nonneg by lia.
  replace (Z.to_nat (len a)) with (length a) by (unfold len; lia).
  replace (Z.to_nat (len a + len b - len a)) with (length b) by (unfold len; lia).
  rewrite skipn_app, skipn_all, Nat.sub_diag. cbn [skipn app].
  rewrite firstn_app, firstn_all, Nat.sub_diag. cbn [firstn].
  apply app_nil_r.
Qed.

Lemma slice_app_prefix {A : Type} (a c : list A) :
  slice (a ++ c) 0 (len a) = a.
Proof. exact (slice_app_middle [] a c). Qed.

(** The header that [struct.pack("<IHHI", ...)] builds reads back as the
    four values packed. *)
Lemma header_fields (length type code tid : Z) (header payload : bytes) :
  pack_IHHI length type code tid = Ok header ->
  pkt_len_of (header ++ payload) = length /\
  pkt_type_of (header ++ payload) = type /\
  pkt_code_of (header ++ payload) = code /\
  pkt_tid_of (header ++ payload) = tid.
Proof.
  unfold pack_IHHI, pack_I, pack_H, fits. intro H.
  destruct ((0 <=? length) && (length <? 2 ^ 32)) eqn:E0; [|discriminate].
  destruct ((0 <=? type) && (type <? 2 ^ 16)) eqn:E1; [|discriminate].
  destruct ((0 <=? code) && (code <? 2 ^ 16)) eqn:E2; [|discriminate].
  destruct ((0 <=? tid) && (tid <? 2 ^ 32)) eqn:E3; [|discriminate].
  set (b0 := le_bytes 4 length) in *. set (b1 := le_bytes 2 type) in *.
  set (b2 := le_bytes 2 code) in *. set (b3 := le_bytes 4 tid) in *.
  cbn [bind_result] in H.
  assert (Hh : header = b0 ++ b1 ++ b2 ++ b3) by congruence.
  subst header. clear H.
  apply andb_true_iff in E0, E1, E2, E3.
  rewrite Z.leb_le, Z.ltb_lt in E0, E1, E2, E3.
  assert (L0 : len b0 = 4) by apply len_le_bytes.
  assert (L1 : len b1 = 2) by apply len_le_bytes.
  assert (L2 : len b2 = 2) by apply len_le_bytes.
  assert (L3 : len b3 = 4) by apply len_le_bytes.
  unfold pkt_len_of, pkt_type_of, pkt_code_of, pkt_tid_of.
  repeat split.
  - replace ((b0 ++ b1 ++ b2 ++ b3) ++ payload)
      with (b0 ++ (b1 ++ b2 ++ b3 ++ payload))
      by (rewrite <- !app_assoc; reflexivity).
    rewrite <- L0 at 1.
    rewrite slice_app_prefix. apply le_uint_le_bytes. cbn. lia.
  - replace ((b0 ++ b1 ++ b2 ++ b3) ++ payload)
      with (b0 ++ b1 ++ (b2 ++ b3 ++ payload))
      by (rewrite <- !app_assoc; reflexivity).
    replace 4 with (len b0) by exact L0.
    replace 6 with (len b0 + len b1) by lia.
    rewrite slice_app_middle. apply le_uint_le_bytes. cbn. lia.
  - replace ((b0 ++ b1 ++ b2 ++ b3) ++ payload)
      with ((b0 ++ b1) ++ b2 ++ (b3 ++ payload))
      by (rewrite <- !app_assoc; reflexivity).
    replace 6 with (len (b0 ++ b1)) by (rewrite len_app; lia).
    replace 8 with (len (b0 ++ b1) + len b2) by (rewrite len_app; lia).
    rewrite slice_app_middle. apply le_uint_le_bytes. cbn. lia.
  - replace ((b0 ++ b1 ++ b2 ++ b3) ++ payload)
      with ((b0 ++ b1 ++ b2) ++ b3 ++ payload)
      by (rewrite <- !app_assoc; reflexivity).
    replace 8 with (len (b0 ++ b1 ++ b2)) by (rewrite !len_app; lia).
    replace 12 with (len (b0 ++ b1 ++ b2) + len b3) by (rewrite !len_app; lia).
    rewrite slice_app_middle. apply le_uint_le_bytes. cbn. lia.
Qed.

Lemma out_ep_write_step (self s1 : USBTransport) (new : list bytes) (packet : bytes) :
  during_call self s1 new ->
  (snd (out_ep_write packet s1) = Ok tt /\
   during_call self (fst (out_ep_write packet s1)) (new ++ [packet]))
  \/ (snd (out_ep_write packet s1) = Raise USBError /\
      during_call self (fst (out_ep_write packet s1)) new).
Proof.
  intros (Htid & Hin & Hout & Hsent). unfold out_ep_write.
  destruct (out_ep s1) as [ep|] eqn:E; [|contradiction].
  unfold sent_of in Hsent. rewrite E in Hsent.
  destruct (faults ep) as [|[|] fs]; cbn [fst snd tl];
    [left|right|left]; (split; [reflexivity|]);
    unfold during_call, sent_of; cbn [in_ep out_ep _transaction_id sent];
    repeat split; try assumption; try discriminate;
    rewrite Hsent; rewrite <- ?app_assoc; reflexivity.
Qed.

Lemma in_ep_receive_step (self s1 : USBTransport) (new : list bytes) :
  during_call self s1 new ->
  during_call self (fst (in_ep_receive s1)) new.
Proof.
  intros (Htid & Hin & Hout & Hsent). unfold in_ep_receive.
  destruct (in_ep s1) as [ep|] eqn:E; [|contradiction].
  destruct (receive (pending ep) []) as [reads r]. cbn [fst].
  unfold during_call, sent_of in *. cbn [in_ep out_ep _transaction_id].
  repeat split; try assumption; discriminate.
Qed.

Lemma except_USBError_fst {A : Type} (m : M A) (why : transport_failure)
    (s : USBTransport) :
  fst (except_USBError m why s) = fst (m s).
Proof.
  unfold except_USBError. destruct (m s) as [s' [a|e]]; [reflexivity|].
  destruct e; reflexivity.
Qed.

Lemma except_USBError_Ok {A : Type} (m : M A) (why : transport_failure)
    (s : USBTransport) (a : A) :
  snd (except_USBError m why s) = Ok a <-> snd (m s) = Ok a.
Proof.
  unfold except_USBError. destruct (m s) as [s' [a'|e]]; [reflexivity|].
  destruct e; cbn [snd]; split; discriminate.
Qed.

(** Every call on a connected transport moves the counter on by one and
    writes only packets that carry the id it drew. *)
Lemma send_command_step (self : USBTransport) (op : Z) (params : option (list Z))
    (data : option bytes) :
  in_ep self <> None -> out_ep self <> None ->
  exists new,
    during_call self (fst (send_command op params data self)) new /\
    packets_of_call op (_transaction_id self) new.
Proof.
  intros Hin Hout. unfold send_command.
  destruct (out_ep self) as [oep|] eqn:Eo; [|contradiction].
  destruct (in_ep self) as [iep|] eqn:Ei; [|contradiction].
  cbn [is_None orb].
  unfold bind at 1. unfold transaction_id at 1. cbv beta zeta.
  set (tid := _transaction_id self).
  set (s1 := mkUSBTransport (in_ep self) (out_ep self) (tid + 1)).
  assert (H1 : during_call self s1 []).
  { unfold during_call, s1, sent_of. cbn [in_ep out_ep _transaction_id].
    rewrite Ei, Eo, app_nil_r. repeat split; discriminate. }
  clearbody s1.
  unfold bind at 1. unfold lift at 1.
  destruct (pack_params match params with Some ps => ps | None => [] end)
    as [param_data|e]; [|exists []; split; [exact H1|exact I]].
  unfold bind at 1. unfold lift at 1.
  destruct (pack_IHHI (12 + len param_data) COMMAND op tid) as [header|e] eqn:Eh;
    [|exists []; split; [exact H1|exact I]].
  pose proof (header_fields _ _ _ _ header param_data Eh) as (_ & Ft & Fc & Fi).
  unfold bind at 1.
  pose proof (except_USBError_fst (out_ep_write (header ++ param_data))
                FailedToSendCommand s1) as Hf1.
  pose proof (except_USBError_Ok (out_ep_write (header ++ param_data))
                FailedToSendCommand s1 tt) as Hr1.
  destruct (out_ep_write_step self s1 [] (header ++ param_data) H1)
    as [[Hok Hd]|[Hbad Hd]];
    destruct (except_USBError (out_ep_write (header ++ param_data))
                FailedToSendCommand s1) as [s2 r2];
    cbn [fst snd] in Hf1, Hr1; rewrite <- Hf1 in Hd.
  2:{ destruct r2 as [[]|e2].
      - destruct Hr1 as [Hr1 _]. rewrite (Hr1 eq_refl) in Hbad. discriminate.
      - exists []. split; [exact Hd|exact I]. }
  destruct r2 as [[]|e2];
    [|exists [header ++ param_data]; split; [exact Hd|cbn; auto]].
  cbn [app] in Hd.
  destruct data as [payload|].
  - unfold bind at 1. unfold bind at 1. unfold lift at 1.
    destruct (pack_IHHI (12 + len payload) DATA op tid) as [header2|e] eqn:Eh2;
      [|exists [header ++ param_data]; split; [exact Hd|cbn; auto]].
    pose proof (header_fields _ _ _ _ header2 payload Eh2) as (_ & Gt & Gc & Gi).
    pose proof (except_USBError_fst (out_ep_write (header2 ++ payload))
                  FailedToSendData s2) as Hf2.
    destruct (out_ep_write_step self s2 _ (header2 ++ payload) Hd)
      as [[Hok2 Hd2]|[Hbad2 Hd2]];
      destruct (except_USBError (out_ep_write (header2 ++ payload))
                  FailedToSendData s2) as [s3 r3];
      cbn [fst snd] in Hf2; rewrite <- Hf2 in Hd2.
    + destruct r3 as [[]|e3].
      * rewrite except_USBError_fst.
        exists [header ++ param_data; header2 ++ payload].
        split; [apply in_ep_receive_step; exact Hd2|cbn; auto].
      * exists [header ++ param_data; header2 ++ payload].
        split; [exact Hd2|cbn; auto].
    + destruct r3 as [[]|e3].
      * rewrite except_USBError_fst.
        exists [header ++ param_data].
        split; [apply in_ep_receive_step; exact Hd2|cbn; auto].
      * exists [header ++ param_data]. split; [exact Hd2|cbn; auto].
  - unfold bind at 1. unfold ret at 1.
    rewrite except_USBError_fst.
    exists [header ++ param_data].
    split; [apply in_ep_receive_step; exact Hd|cbn; auto].
Qed.

Lemma send_command_Ok_connected (self : USBTransport) (op : Z)
    (params : option (list Z)) (data : option bytes) (r : Z * bytes) :
  snd (send_command op params data self) = Ok r ->
  in_ep self <> None /\ out_ep self <> None.
Proof.
  unfold send_command.
  destruct (out_ep self), (in_ep self); cbn [is_None orb raise snd];
    try discriminate.
  intros _. split; discriminate.
Qed.

(** A call with a payload on a transport that was at id 7: the Command and
    the Data container both carry 7, and the counter is left at 8. *)
Example command_and_data_same_id :
  let self := mkUSBTransport (Some (mkInEndpoint [ReadOk (response_container OK 7)]))
                             (Some (mkOutEndpoint [] [])) 7 in
  let self' := fst (send_command GET_EVENT (Some [1; 2]) (Some (bytes_of [5])) self) in
  map pkt_tid_of (sent_of self') = [7; 7]
  /\ map pkt_type_of (sent_of self') = [COMMAND; DATA]
  /\ _transaction_id self' = 8.
Proof. vm_compute. repeat split; reflexivity. Qed.

(** * Further properties of the transport *)

(** ** One call, step by step *)

Lemma pack_params_ok (params : list Z) :
  Forall (fun p => fits 32 p = true) params ->
  pack_params params = Ok (flat_map (le_bytes 4) params).
Proof.
  induction 1 as [|p ps Hp _ IH]; [reflexivity|].
  cbn [pack_params flat_map]. unfold pack_I. rewrite Hp. cbn [bind_result].
  rewrite IH. reflexivity.
Qed.

Lemma len_packed_params (params : list Z) :
  len (flat_map (le_bytes 4) params) = 4 * len params.
Proof.
  induction params as [|p ps IH]; [reflexivity|].
  cbn [flat_map]. rewrite len_app, len_le_bytes, IH.
  unfold len. cbn [length]. lia.
Qed.

Lemma pack_IHHI_ok (length type code tid : Z) :
  fits 32 length = true -> fits 16 type = true ->
  fits 16 code = true -> fits 32 tid = true ->
  pack_IHHI length type code tid =
  Ok (le_bytes 4 length ++ le_bytes 2 type ++ le_bytes 2 code ++ le_bytes 4 tid).
Proof.
  intros H0 H1 H2 H3. unfold pack_IHHI, pack_I, pack_H.
  rewrite H0, H1, H2, H3. reflexivity.
Qed.

(** A call without a payload on a connected transport, when the parameters
    pack into [param_data], the header packs into [header] and the write
    does not fail: the counter moves on, the one packet is written, and the
    outcome is that of the read loop. *)
Lemma send_command_exact (self : USBTransport) (reads : list usb_read)
    (oep : OutEndpoint) (op : Z) (params : option (list Z))
    (param_data header : bytes) :
  in_ep self = Some (mkInEndpoint reads) -> out_ep self = Some oep ->
  hd false (faults oep) = false ->
  pack_params match params with Some ps => ps | None => [] end = Ok param_data ->
  pack_IHHI (12 + len param_data) COMMAND op (_transaction_id self) = Ok header ->
  send_command op params None self =
  (mkUSBTransport (Some (mkInEndpoint (fst (receive reads []))))
                  (Some (mkOutEndpoint (sent oep ++ [header ++ param_data])
                                       (tl (faults oep))))
                  (_transaction_id self + 1),
   as_receive_failure (snd (receive reads []))).
Proof.
  intros Hin Hout Hf Hp Hh.
  unfold send_command. rewrite Hin, Hout. cbn [is_None orb].
  unfold bind, transaction_id, lift, ret, except_USBError, out_ep_write,
    in_ep_receive.
  rewrite Hp, Hh. cbn [in_ep out_ep _transaction_id]. rewrite Hout.
  destruct (faults oep) as [|[|] fs]; cbn [hd] in Hf; try discriminate;
    cbn [tl in_ep out_ep _transaction_id]; rewrite Hin;
    cbn [in_ep out_ep _transaction_id pending];
    (destruct (receive reads []) as [reads' [r|e]]; [reflexivity|]);
    destruct e; reflexivity.
Qed.

Lemma fits_iff (bits v : Z) : fits bits v = true <-> 0 <= v < 2 ^ bits.
Proof. unfold fits. rewrite andb_true_iff, Z.leb_le, Z.ltb_lt. reflexivity. Qed.

(** The equation of [send_command_exact] with the packet spelled out. *)
Lemma send_command_ready (self : USBTransport) (reads : list usb_read)
    (oep : OutEndpoint) (op : Z) (params : list Z) :
  ready self reads oep -> fits 16 op = true -> u32_params params ->
  send_command op (Some params) None self =
  (after_call self oep (command_packet op (_transaction_id self) params)
              (fst (receive reads [])),
   as_receive_failure (snd (receive reads []))).
Proof.
  intros (Hin & Hout & Hf & Htid) Hop [Hps Hn].
  assert (Hl : fits 32 (12 + 4 * len params) = true).
  { apply fits_iff. pose proof (len_nonneg params). lia. }
  rewrite (send_command_exact self reads oep op (Some params)
             (flat_map (le_bytes 4) params)
             (le_bytes 4 (12 + 4 * len params) ++ le_bytes 2 COMMAND ++
              le_bytes 2 op ++ le_bytes 4 (_transaction_id self)));
    try assumption.
  - unfold after_call, command_packet. rewrite <- !app_assoc. reflexivity.
  - apply pack_params_ok. assumption.
  - rewrite len_packed_params. apply pack_IHHI_ok; try assumption. reflexivity.
Qed.

(** The same with a payload: both containers are written. *)
Lemma send_command_ready_data (self : USBTransport) (reads : list usb_read)
    (oep : OutEndpoint) (op : Z) (params : list Z) (payload : bytes) :
  ready self reads oep -> hd false (tl (faults oep)) = false ->
  fits 16 op = true -> u32_params params -> fits 32 (12 + len payload) = true ->
  send_command op (Some params) (Some payload) self =
  (mkUSBTransport
     (Some (mkInEndpoint (fst (receive reads []))))
     (Some (mkOutEndpoint
              (sent oep ++ [command_packet op (_transaction_id self) params;
                            data_container op (_transaction_id self) payload])
              (tl (tl (faults oep)))))
     (_transaction_id self + 1),
   as_receive_failure (snd (receive reads []))).
Proof.
  intros (Hin & Hout & Hf & Htid) Hf2 Hop [Hps Hn] Hpl.
  assert (Hl : fits 32 (12 + 4 * len params) = true).
  { apply fits_iff. pose proof (len_nonneg params). lia. }
  unfold send_command. rewrite Hin, Hout. cbn [is_None orb].
  unfold bind, transaction_id, lift, ret, except_USBError, out_ep_write,
    in_ep_receive.
  rewrite (pack_params_ok params Hps), len_packed_params.
  rewrite (pack_IHHI_ok _ COMMAND _ _ Hl eq_refl Hop Htid).
  rewrite (pack_IHHI_ok _ DATA _ _ Hpl eq_refl Hop Htid).
  cbn [in_ep out_ep _transaction_id]. rewrite Hout.
  unfold command_packet, data_container. rewrite <- !app_assoc.
  destruct (faults oep) as [|[|] [|[|] fs]]; cbn [hd tl] in Hf, Hf2;
    try discriminate;
    cbn [tl in_ep out_ep _transaction_id sent faults]; rewrite ?Hin;
    cbn [in_ep out_ep _transaction_id pending];
    (destruct (receive reads []) as [reads' [r|e]];
     [rewrite <- ?app_assoc; reflexivity|]);
    destruct e; rewrite <- ?app_assoc; reflexivity.
Qed.

Lemma command_packet_header (op tid : Z) (params : list Z) :
  fits 16 op = true -> fits 32 tid = true -> u32_params params ->
  pkt_type_of (command_packet op tid params) = COMMAND
  /\ pkt_code_of (command_packet op tid params) = op
  /\ pkt_tid_of (command_packet op tid params) = tid.
Proof.
  intros Hop Htid [Hps Hn].
  assert (Hl : fits 32 (12 + 4 * len params) = true).
  { apply fits_iff. pose proof (len_nonneg params). lia. }
  pose proof (pack_IHHI_ok _ COMMAND _ _ Hl eq_refl Hop Htid) as Hpack.
  destruct (header_fields _ _ _ _ _ (flat_map (le_bytes 4) params) Hpack)
    as (_ & F1 & F2 & F3).
  unfold command_packet. rewrite <- !app_assoc in F1, F2, F3.
  repeat split; assumption.
Qed.

Lemma data_container_header (op tid : Z) (payload : bytes) :
  fits 16 op = true -> fits 32 tid = true -> fits 32 (12 + len payload) = true ->
  pkt_type_of (data_container op tid payload) = DATA
  /\ pkt_code_of (data_container op tid payload) = op
  /\ pkt_tid_of (data_container op tid payload) = tid.
Proof.
  intros Hop Htid Hl.
  pose proof (pack_IHHI_ok _ DATA _ _ Hl eq_refl Hop Htid) as Hpack.
  destruct (header_fields _ _ _ _ _ payload Hpack) as (_ & F1 & F2 & F3).
  unfold data_container. rewrite <- !app_assoc in F1, F2, F3.
  repeat split; assumption.
Qed.



Lemma nth_error_split_at {A : Type} (l : list A) (i : nat) (x : A) :
  nth_error l i = Some x ->
  l = firstn i l ++ x :: skipn (S i) l /\ length (firstn i l) = i.
Proof.
  revert l. induction i as [|i IH]; intros [|y l] H; try discriminate.
  - injection H as ->. split; reflexivity.
  - destruct (IH l H) as [Hl Hn]. cbn [firstn skipn length app].
    split; [f_equal; exact Hl|f_equal; exact Hn].
Qed.

(** X1: the Command container that [send_command] writes is as long as its
    length field says, 12 + 4 bytes per parameter; read back the way the
    read loop reads a header it gives the length, type Command, the
    operation code and the transaction id of the call; and every parameter
    reads back as the little-endian u32 at its place after the header. *)
Theorem command_container_on_the_wire (self : USBTransport)
    (reads : list usb_read) (oep : OutEndpoint) (op : Z) (params : list Z) :
  ready self reads oep -> fits 16 op = true -> u32_params params ->
  exists cmd,
    sent_of (fst (send_command op (Some params) None self)) = sent oep ++ [cmd]
    /\ len cmd = 12 + 4 * len params
    /\ unpack_IHHI (slice_to cmd 12) =
         Ok (len cmd, COMMAND, op, _transaction_id self)
    /\ forall i p, nth_error params i = Some p ->
         unpack_from_I cmd (12 + 4 * Z.of_nat i) = Ok p.
Proof.
  intros Hready Hop Hparams.
  exists (command_packet op (_transaction_id self) params).
  rewrite (send_command_ready self reads oep op params) by assumption.
  destruct Hready as (_ & _ & _ & Htid). destruct Hparams as [Hps Hn].
  pose proof (len_nonneg params) as Hlp.
  assert (Hl : fits 32 (12 + 4 * len params) = true) by (apply fits_iff; lia).
  pose proof (pack_IHHI_ok _ COMMAND _ _ Hl eq_refl Hop Htid) as Hpack.
  set (header := le_bytes 4 (12 + 4 * len params) ++ le_bytes 2 COMMAND ++
                 le_bytes 2 op ++ le_bytes 4 (_transaction_id self)) in *.
  assert (Hcmd : command_packet op (_transaction_id self) params =
                 header ++ flat_map (le_bytes 4) params).
  { unfold command_packet, header. rewrite <- !app_assoc. reflexivity. }
  assert (Hlh : len header = 12).
  { unfold header. rewrite !len_app, !len_le_bytes. reflexivity. }
  assert (Hlen : len (command_packet op (_transaction_id self) params) =
                 12 + 4 * len params).
  { rewrite Hcmd, len_app, Hlh, len_packed_params. reflexivity. }
  split; [reflexivity|]. split; [exact Hlen|]. split.
  - rewrite unpack_header by lia. rewrite Hlen, Hcmd.
    destruct (header_fields _ _ _ _ header (flat_map (le_bytes 4) params) Hpack)
      as (F0 & F1 & F2 & F3).
    rewrite F0, F1, F2, F3. reflexivity.
  - intros i p Hi.
    destruct (nth_error_split_at params i p Hi) as [Hsplit Hfi].
    assert (Hp : fits 32 p = true).
    { rewrite Forall_forall in Hps. apply Hps. eapply nth_error_In. exact Hi. }
    assert (Hi_lt : (i < length params)%nat).
    { apply nth_error_Some. rewrite Hi. discriminate. }
    rewrite unpack_from_I_ok by (unfold len in *; lia).
    rewrite Hcmd. rewrite Hsplit at 1. rewrite flat_map_app. cbn [flat_map].
    rewrite app_assoc.
    set (before := header ++ flat_map (le_bytes 4) (firstn i params)).
    assert (Hb : len before = 12 + 4 * Z.of_nat i).
    { unfold before. rewrite len_app, Hlh, len_packed_params.
      unfold len. rewrite Hfi. reflexivity. }
    rewrite <- Hb.
    replace (len before + 4) with (len before + len (le_bytes 4 p))
      by (rewrite len_le_bytes; reflexivity).
    rewrite slice_app_middle. f_equal.
    apply le_uint_le_bytes. apply fits_iff in Hp. exact Hp.
Qed.

(** A sample transport is ready for a call. *)
Ltac sample_ready :=
  unfold ready, u32_params, sample_ok_transport, sample_transport;
  cbn [in_ep out_ep _transaction_id faults hd];
  repeat split; try reflexivity; repeat constructor.

Lemma command_container_on_the_wire_witness :
  exists cmd,
    sent_of (fst (send_command SET_REMOTE_MODE (Some [1]) None sample_ok_transport))
      = [cmd]
    /\ len cmd = 16.
Proof.
  destruct (command_container_on_the_wire sample_ok_transport
              [ReadOk (response_container OK 0)] (mkOutEndpoint [] [])
              SET_REMOTE_MODE [1])
    as (cmd & Hs & Hl & _); [sample_ready|reflexivity|sample_ready|].
  exists cmd. split; [exact Hs|exact Hl].
Defined.

(** ** The first answer *)

(** X2: when the first container read is already a Response, [send_command]
    returns its code with empty data; exactly that one read is consumed and
    exactly the Command container is written. *)
Theorem response_first_gives_empty_data (self : USBTransport)
    (oep : OutEndpoint) (op : Z) (params : list Z) (raw : bytes)
    (rest : list usb_read) :
  ready self (ReadOk raw :: rest) oep -> fits 16 op = true -> u32_params params ->
  12 <= len raw -> pkt_type_of raw = RESPONSE ->
  send_command op (Some params) None self =
  (after_call self oep (command_packet op (_transaction_id self) params) rest,
   Ok (pkt_code_of raw, [])).
Proof.
  intros Hready Hop Hparams H12 Ht.
  rewrite (send_command_ready self (ReadOk raw :: rest) oep op params) by assumption.
  rewrite receive_eq by assumption. rewrite Ht. reflexivity.
Qed.

Lemma response_first_gives_empty_data_witness :
  snd (send_command SET_REMOTE_MODE (Some [1]) None sample_ok_transport) = Ok (OK, []).
Proof.
  rewrite (response_first_gives_empty_data sample_ok_transport (mkOutEndpoint [] [])
             SET_REMOTE_MODE [1] (response_container OK 0) []);
    [reflexivity|sample_ready|reflexivity|sample_ready
    |vm_compute; congruence|vm_compute; reflexivity].
Defined.

(** X3: when the first read gives fewer than 12 bytes, [send_command] raises
    the transport error for a packet that is too short, with the number of
    bytes read; when the first read fails or nothing arrives before the
    timeout, it raises the transport error for a failed receive.  In each
    case the Command container has been written and the id used. *)
Theorem first_read_failures (self : USBTransport) (oep : OutEndpoint) (op : Z)
    (params : list Z) (reads : list usb_read) :
  ready self reads oep -> fits 16 op = true -> u32_params params ->
  let cmd := command_packet op (_transaction_id self) params in
  (forall raw rest, reads = ReadOk raw :: rest -> len raw < 12 ->
     send_command op (Some params) None self =
     (after_call self oep cmd rest,
      Raise (USBTransportError (PacketTooShort (len raw)))))
  /\ (forall rest, reads = ReadError :: rest ->
     send_command op (Some params) None self =
     (after_call self oep cmd rest,
      Raise (USBTransportError FailedToReceiveResponse)))
  /\ (reads = [] ->
     send_command op (Some params) None self =
     (after_call self oep cmd [],
      Raise (USBTransportError FailedToReceiveResponse))).
Proof.
  intros Hready Hop Hparams cmd.
  rewrite (send_command_ready self reads oep op params) by assumption.
  fold cmd. split; [|split].
  - intros raw rest -> Hshort. cbn [receive].
    replace (len raw <? 12) with true by (symmetry; apply Z.ltb_lt; assumption).
    reflexivity.
  - intros rest ->. reflexivity.
  - intros ->. reflexivity.
Qed.

Lemma first_read_failures_witness :
  snd (send_command GET_EVENT (Some []) None
         (sample_transport [ReadOk (bytes_of [12; 0; 0; 0; 3; 0])])) =
  Raise (USBTransportError (PacketTooShort 6)).
Proof.
  rewrite (proj1 (first_read_failures
                    (sample_transport [ReadOk (bytes_of [12; 0; 0; 0; 3; 0])])
                    (mkOutEndpoint [] []) GET_EVENT []
                    [ReadOk (bytes_of [12; 0; 0; 0; 3; 0])] ltac:(sample_ready)
                    eq_refl ltac:(sample_ready))
                 (bytes_of [12; 0; 0; 0; 3; 0]) [] eq_refl ltac:(vm_compute; reflexivity)).
  reflexivity.
Defined.

(** ** What a call returns and what it refuses *)

(** When the inner loop ends normally it has taken some reads [chunks], in
    order, appended them, and the bytes have reached the declared length. *)
Lemma read_more_Ok (pkt_len : Z) (reads : list usb_read) :
  forall (acc0 acc : bytes) (rest : list usb_read),
    read_more pkt_len reads acc0 = (rest, Ok acc) ->
    exists chunks,
      reads = map ReadOk chunks ++ rest
      /\ acc = acc0 ++ concat chunks
      /\ pkt_len <= len acc + 12.
Proof.
  induction reads as [|r reads IH]; intros acc0 acc rest H; cbn [read_more] in H.
  - destruct (len acc0 + 12 <? pkt_len) eqn:E; [discriminate|].
    apply Z.ltb_ge in E. injection H as <- <-.
    exists []. cbn [map concat app]. rewrite app_nil_r.
    repeat split; [lia].
  - destruct (len acc0 + 12 <? pkt_len) eqn:E.
    + destruct r as [more|]; [|discriminate].
      destruct (IH _ _ _ H) as (chunks & Hr & Ha & Hl).
      exists (more :: chunks). cbn [map concat app].
      split; [f_equal; exact Hr|].
      split; [rewrite Ha, <- app_assoc; reflexivity|exact Hl].
    + apply Z.ltb_ge in E. injection H as <- <-.
      exists []. cbn [map concat app]. rewrite app_nil_r.
      repeat split; [lia].
Qed.

(** When the read loop returns, the reads it took end with the Response
    whose code it returns, and the data is the data the loop was entered
    with (that Response was the first read), or what the last Data
    container before the Response and its continuation reads carried, cut
    to the declared length. *)
Lemma receive_data_origin (n : nat) :
  forall (reads : list usb_read) (rd : bytes) (rest : list usb_read)
         (code : Z) (data : bytes),
    (length reads <= n)%nat ->
    receive reads rd = (rest, Ok (code, data)) ->
    exists resp,
      12 <= len resp /\ pkt_type_of resp = RESPONSE /\ code = pkt_code_of resp
      /\ ((reads = ReadOk resp :: rest /\ data = rd)
          \/ exists before raw chunks,
               reads = before ++ ReadOk raw :: map ReadOk chunks ++ ReadOk resp :: rest
               /\ 12 <= len raw /\ pkt_type_of raw = DATA
               /\ pkt_len_of raw <= len (slice_from raw 12 ++ concat chunks) + 12
               /\ data = slice_to (slice_from raw 12 ++ concat chunks)
                                  (pkt_len_of raw - 12)).
Proof.
  induction n as [|n IH]; intros reads rd rest code data Hn H.
  - destruct reads; [discriminate|cbn [length] in Hn; lia].
  - destruct reads as [|[raw|] reads]; [discriminate| |discriminate].
    cbn [length] in Hn.
    destruct (Z_lt_ge_dec (len raw) 12) as [Hs|H12].
    + cbn [receive] in H.
      replace (len raw <? 12) with true in H by (symmetry; apply Z.ltb_lt; lia).
      discriminate.
    + rewrite receive_eq in H by lia.
      destruct (pkt_type_of raw =? DATA) eqn:Ed.
      * apply Z.eqb_eq in Ed.
        destruct (read_more (pkt_len_of raw) reads (slice_from raw 12))
          as [rest' [acc|e]] eqn:Em; [|discriminate].
        destruct (read_more_Ok _ _ _ _ _ Em) as (chunks & Hreads & Hacc & Hl).
        assert (Hlen : (length rest' <= n)%nat).
        { rewrite Hreads, length_app in Hn. lia. }
        destruct (IH rest' _ rest code data Hlen H)
          as (resp & Hr12 & Hrt & Hrc & [[Hrest Hd]|(before & raw' & chunks' & Hb)]).
        -- exists resp. repeat split; try assumption.
           right. exists [], raw, chunks. cbn [app].
           rewrite Hreads, Hrest. rewrite <- Hacc.
           repeat split; try assumption; lia.
        -- exists resp. repeat split; try assumption.
           right. exists (ReadOk raw :: map ReadOk chunks ++ before), raw', chunks'.
           destruct Hb as (Hrest & Hb). split; [|exact Hb].
           rewrite Hreads, Hrest. cbn [app]. rewrite <- app_assoc. reflexivity.
      * destruct (pkt_type_of raw =? RESPONSE) eqn:Er; [|discriminate].
        apply Z.eqb_eq in Er. injection H as <- <- <-.
        exists raw. repeat split; try assumption; try lia.
        left. split; reflexivity.
Qed.



(** X5: when the write of the Command container fails, [send_command]
    raises the transport error for a failed send and reads nothing: the
    pending reads are untouched and nothing is added to what was sent, while
    the transaction id is used up.  When the Command container goes out and
    the write of the Data container fails, it raises the error for failed
    data, again without reading. *)
Theorem failed_write_reads_nothing (self : USBTransport) (iep : InEndpoint)
    (oep : OutEndpoint) (op : Z) (params : list Z) (fs : list bool) :
  in_ep self = Some iep -> out_ep self = Some oep ->
  fits 16 op = true -> fits 32 (_transaction_id self) = true -> u32_params params ->
  (faults oep = true :: fs ->
   forall data,
     send_command op (Some params) data self =
     (mkUSBTransport (Some iep) (Some (mkOutEndpoint (sent oep) fs))
                     (_transaction_id self + 1),
      Raise (USBTransportError FailedToSendCommand)))
  /\ (faults oep = false :: true :: fs ->
      forall payload, fits 32 (12 + len payload) = true ->
        send_command op (Some params) (Some payload) self =
        (mkUSBTransport (Some iep)
           (Some (mkOutEndpoint
                    (sent oep ++ [command_packet op (_transaction_id self) params]) fs))
           (_transaction_id self + 1),
         Raise (USBTransportError FailedToSendData))).
Proof.
  intros Hin Hout Hop Htid [Hps Hn].
  assert (Hl : fits 32 (12 + 4 * len params) = true).
  { apply fits_iff. pose proof (len_nonneg params). lia. }
  assert (Hcmd : forall data,
            send_command op (Some params) data self =
            (let! _ := except_USBError
                         (out_ep_write (command_packet op (_transaction_id self) params))
                         FailedToSendCommand in
             let! _ := match data with
                       | Some data =>
                           let! header :=
                             lift (pack_IHHI (12 + len data) DATA op
                                             (_transaction_id self)) in
                           except_USBError (out_ep_write (header ++ data))
                                           FailedToSendData
                       | None => ret tt
                       end in
             except_USBError in_ep_receive FailedToReceiveResponse)
              (mkUSBTransport (Some iep) (Some oep) (_transaction_id self + 1))).
  { intro data. unfold send_command. rewrite Hin, Hout. cbn [is_None orb].
    unfold bind at 1. unfold transaction_id at 1. cbv beta zeta.
    unfold bind at 1. unfold lift at 1.
    rewrite (pack_params_ok params Hps).
    unfold bind at 1. unfold lift at 1.
    rewrite len_packed_params.
    rewrite (pack_IHHI_ok _ COMMAND _ _ Hl eq_refl Hop Htid).
    unfold command_packet. rewrite <- !app_assoc. rewrite Hin, Hout. reflexivity. }
  split.
  - intros Hf data. rewrite Hcmd.
    unfold bind at 1. unfold except_USBError at 1. unfold out_ep_write.
    cbn [in_ep out_ep _transaction_id]. rewrite Hf. reflexivity.
  - intros Hf payload Hpl. rewrite Hcmd.
    unfold bind at 1. unfold except_USBError at 1. unfold out_ep_write at 1.
    cbn [in_ep out_ep _transaction_id]. rewrite Hf.
    cbn [tl in_ep out_ep _transaction_id].
    unfold bind at 1. unfold bind at 1. unfold lift at 1.
    rewrite (pack_IHHI_ok _ DATA _ _ Hpl eq_refl Hop Htid).
    unfold except_USBError at 1. unfold out_ep_write.
    cbn [in_ep out_ep _transaction_id faults sent]. reflexivity.
Qed.

Lemma failed_write_reads_nothing_witness :
  send_command GET_EVENT (Some []) None
    (mkUSBTransport (Some (mkInEndpoint [ReadOk (response_container OK 0)]))
                    (Some (mkOutEndpoint [] [true])) 5) =
  (mkUSBTransport (Some (mkInEndpoint [ReadOk (response_container OK 0)]))
                  (Some (mkOutEndpoint [] [])) 6,
   Raise (USBTransportError FailedToSendCommand)).
Proof.
  apply (proj1 (failed_write_reads_nothing
                  (mkUSBTransport (Some (mkInEndpoint [ReadOk (response_container OK 0)]))
                                  (Some (mkOutEndpoint [] [true])) 5)
                  (mkInEndpoint [ReadOk (response_container OK 0)])
                  (mkOutEndpoint [] [true]) GET_EVENT [] []
                  eq_refl eq_refl eq_refl eq_refl ltac:(sample_ready)));
    reflexivity.
Defined.

Lemma pack_params_cases (params : list Z) :
  pack_params params = Ok (flat_map (le_bytes 4) params) \/
  (Exists (fun p => fits 32 p = false) params /\ pack_params params = Raise StructError).
Proof.
  induction params as [|p ps IH]; [left; reflexivity|].
  cbn [pack_params flat_map]. unfold pack_I.
  destruct (fits 32 p) eqn:Ep; cbn [bind_result].
  - destruct IH as [IH|[Hex IH]]; rewrite IH; cbn [bind_result].
    + left. reflexivity.
    + right. split; [apply Exists_cons_tl; exact Hex|reflexivity].
  - right. split; [apply Exists_cons_hd; exact Ep|reflexivity].
Qed.

Lemma pack_IHHI_unfit (length type code tid : Z) :
  fits 16 code = false \/ fits 32 tid = false ->
  pack_IHHI length type code tid = Raise StructError.
Proof.
  intro H. unfold pack_IHHI, pack_I, pack_H.
  destruct (fits 32 length); cbn [bind_result]; [|reflexivity].
  destruct (fits 16 type); cbn [bind_result]; [|reflexivity].
  destruct (fits 16 code); cbn [bind_result]; [|reflexivity].
  destruct (fits 32 tid); cbn [bind_result]; [|reflexivity].
  destruct H; discriminate.
Qed.

(** X6: values that do not fit their field are refused before anything is
    written: when a parameter is not a u32, the operation code is not a u16,
    or the transaction counter has grown past u32 (it never wraps around),
    [send_command] on a connected transport raises [struct.error]; nothing
    is written or read, and the transaction id is used up all the same. *)
Theorem values_out_of_range_raise (self : USBTransport) (op : Z)
    (params : list Z) (data : option bytes) :
  in_ep self <> None -> out_ep self <> None ->
  Exists (fun p => fits 32 p = false) params \/ fits 16 op = false \/
    fits 32 (_transaction_id self) = false ->
  send_command op (Some params) data self =
  (mkUSBTransport (in_ep self) (out_ep self) (_transaction_id self + 1),
   Raise StructError).
Proof.
  intros Hin Hout Hbad. unfold send_command.
  destruct (out_ep self) as [oep|] eqn:Eo; [|contradiction].
  destruct (in_ep self) as [iep|] eqn:Ei; [|contradiction].
  cbn [is_None orb].
  unfold bind at 1. unfold transaction_id at 1. cbv beta zeta.
  rewrite Eo, Ei.
  unfold bind at 1. unfold lift at 1.
  destruct (pack_params_cases params) as [Hp|[_ Hp]]; rewrite Hp; [|reflexivity].
  unfold bind at 1. unfold lift at 1.
  destruct Hbad as [Hex|Hbad].
  - exfalso. induction Hex as [p ps Hp'|p ps _ IH].
    + cbn [pack_params] in Hp. unfold pack_I in Hp. rewrite Hp' in Hp. discriminate.
    + cbn [pack_params flat_map] in Hp.
      destruct (pack_I p) as [b|e]; cbn [bind_result] in Hp; [|discriminate].
      destruct (pack_params_cases ps) as [Hq|[_ Hq]]; [exact (IH Hq)|].
      rewrite Hq in Hp. discriminate.
  - rewrite pack_IHHI_unfit by assumption. reflexivity.
Qed.

Lemma values_out_of_range_raise_witness :
  send_command SET_REMOTE_MODE (Some [-1]) None sample_ok_transport =
  (mkUSBTransport (in_ep sample_ok_transport) (out_ep sample_ok_transport) 1,
   Raise StructError).
Proof.
  apply (values_out_of_range_raise sample_ok_transport SET_REMOTE_MODE [-1] None);
    [cbn; discriminate|cbn; discriminate|].
  left. apply Exists_cons_hd. reflexivity.
Defined.

(** X7: on a transport that is not connected (an endpoint is missing)
    nothing happens to the transport: [send_command] raises the transport
    error for no connection without drawing a transaction id, and so do
    [open_session], [get_device_info], [get_event], [get_shutter_count] and
    [initialize_eos_session], while [close_session] returns normally. *)
Theorem not_connected_calls (self : USBTransport) :
  in_ep self = None \/ out_ep self = None ->
  (forall op params data,
     send_command op params data self =
       (self, Raise (USBTransportError NotConnected)))
  /\ open_session self = (self, Raise (USBTransportError NotConnected))
  /\ get_device_info self = (self, Raise (USBTransportError NotConnected))
  /\ get_event self = (self, Raise (USBTransportError NotConnected))
  /\ get_shutter_count self = (self, Raise (USBTransportError NotConnected))
  /\ initialize_eos_session self = (self, Raise (USBTransportError NotConnected))
  /\ close_session self = (self, Ok tt).
Proof.
  intro Hnone.
  assert (Hsend : forall op params data,
            send_command op params data self =
              (self, Raise (USBTransportError NotConnected))).
  { intros op params data. unfold send_command.
    destruct Hnone as [H|H]; rewrite H; cbn [is_None orb];
      [rewrite orb_true_r|]; reflexivity. }
  split; [exact Hsend|].
  unfold open_session, get_device_info, get_shutter_count, get_event,
    initialize_eos_session, close_session, open_session, except_Exception_pass, bind.
  rewrite !Hsend. repeat split; reflexivity.
Qed.

Lemma not_connected_calls_witness :
  get_shutter_count (mkUSBTransport None None 3) =
  (mkUSBTransport None None 3, Raise (USBTransportError NotConnected)).
Proof.
  apply (not_connected_calls (mkUSBTransport None None 3)). left. reflexivity.
Defined.

(** ** Sessions *)

Lemma u32_params_one : u32_params [1].
Proof. split; [repeat constructor|reflexivity]. Qed.

Lemma send_command_response (self : USBTransport) (oep : OutEndpoint) (op : Z)
    (params : list Z) (code : Z) (raw : bytes) (rest : list usb_read) :
  ready self (ReadOk raw :: rest) oep -> fits 16 op = true -> u32_params params ->
  response_with code raw ->
  send_command op (Some params) None self =
  (after_call self oep (command_packet op (_transaction_id self) params) rest,
   Ok (code, [])).
Proof.
  intros Hready Hop Hparams (H12 & Ht & Hc).
  rewrite (send_command_ready self (ReadOk raw :: rest) oep op params) by assumption.
  rewrite receive_eq by assumption. rewrite Ht, Hc. reflexivity.
Qed.

Lemma open_session_response (self : USBTransport) (oep : OutEndpoint)
    (code : Z) (raw : bytes) (rest : list usb_read) :
  ready self (ReadOk raw :: rest) oep -> response_with code raw ->
  open_session self =
  if code =? OK then
    (mkUSBTransport
       (Some (mkInEndpoint rest))
       (Some (mkOutEndpoint
                (sent oep ++ [command_packet OPEN_SESSION (_transaction_id self) [1]])
                (tl (faults oep)))) 0,
     Ok tt)
  else
    (after_call self oep (command_packet OPEN_SESSION (_transaction_id self) [1]) rest,
     Raise (RuntimeError (FailedToOpenSession code))).
Proof.
  intros Hready Hresp. unfold open_session, bind.
  rewrite (send_command_response self oep OPEN_SESSION [1] code raw rest Hready
             eq_refl u32_params_one Hresp).
  cbn [fst]. destruct (code =? OK); reflexivity.
Qed.

(** X8: [open_session] sends OpenSession with the single parameter 1 under
    the current transaction id; on the response code OK it returns with the
    counter at 0, and on any other response code it raises the error for a
    failed open and the counter is not reset: it stays one past the id
    used. *)
Theorem open_session_resets_only_on_ok (self : USBTransport) (oep : OutEndpoint)
    (code : Z) (raw : bytes) (rest : list usb_read) :
  ready self (ReadOk raw :: rest) oep -> response_with code raw ->
  let cmd := command_packet OPEN_SESSION (_transaction_id self) [1] in
  (code = OK ->
     open_session self =
     (mkUSBTransport (Some (mkInEndpoint rest))
                     (Some (mkOutEndpoint (sent oep ++ [cmd]) (tl (faults oep)))) 0,
      Ok tt))
  /\ (code <> OK ->
      open_session self =
      (after_call self oep cmd rest, Raise (RuntimeError (FailedToOpenSession code)))).
Proof.
  intros Hready Hresp cmd.
  rewrite (open_session_response self oep code raw rest Hready Hresp).
  fold cmd. split; intro Hc.
  - subst code. reflexivity.
  - replace (code =? OK) with false by (symmetry; apply Z.eqb_neq; assumption).
    reflexivity.
Qed.

Lemma response_container_with (code tid : Z) :
  fits 16 code = true -> fits 32 tid = true ->
  response_with code (response_container code tid).
Proof.
  intros Hc Ht.
  pose proof (pack_IHHI_ok 12 RESPONSE code tid eq_refl eq_refl Hc Ht) as Hp.
  destruct (header_fields _ _ _ _ _ [] Hp) as (_ & F1 & F2 & _).
  rewrite app_nil_r in F1, F2. unfold response_with, response_container.
  repeat split; try assumption.
  rewrite !len_app, !len_le_bytes. reflexivity.
Qed.

Lemma open_session_resets_only_on_ok_witness :
  _transaction_id
    (fst (open_session
            (mkUSBTransport (Some (mkInEndpoint [ReadOk (response_container DEVICE_BUSY 9)]))
                            (Some (mkOutEndpoint [] [])) 9))) = 10.
Proof.
  rewrite (proj2 (open_session_resets_only_on_ok
                    (mkUSBTransport
                       (Some (mkInEndpoint [ReadOk (response_container DEVICE_BUSY 9)]))
                       (Some (mkOutEndpoint [] [])) 9)
                    (mkOutEndpoint [] []) DEVICE_BUSY (response_container DEVICE_BUSY 9) []
                    ltac:(sample_ready)
                    (response_container_with DEVICE_BUSY 9 eq_refl eq_refl))
                 ltac:(discriminate)).
  reflexivity.
Defined.

Lemma _send_canon_command_response (self : USBTransport) (oep : OutEndpoint)
    (op : Z) (params : list Z) (code : Z) (raw : bytes) (rest : list usb_read) :
  ready self (ReadOk raw :: rest) oep -> fits 16 op = true -> u32_params params ->
  response_with code raw ->
  _send_canon_command op (Some params) self =
  (after_call self oep (command_packet op (_transaction_id self) params) rest,
   if code =? OK then Ok tt else Raise (RuntimeError (CommandFailed op code))).
Proof.
  intros Hready Hop Hparams Hresp. unfold _send_canon_command, bind.
  rewrite (send_command_response self oep op params code raw rest) by assumption.
  cbn [fst]. destruct (code =? OK); reflexivity.
Qed.

(** X9: when the device answers OK three times, [initialize_eos_session]
    returns normally after writing exactly three Command containers, each
    with the parameter 1: OpenSession under the id the transport was at,
    SetRemoteMode under id 0 and SetEventMode under id 1; it leaves the
    counter at 2 and the later reads pending. *)
Theorem initialize_eos_session_sequence (self : USBTransport) (oep : OutEndpoint)
    (r1 r2 r3 : bytes) (rest : list usb_read) :
  ready self (ReadOk r1 :: ReadOk r2 :: ReadOk r3 :: rest) oep ->
  faults oep = [] ->
  response_with OK r1 -> response_with OK r2 -> response_with OK r3 ->
  initialize_eos_session self =
  (mkUSBTransport
     (Some (mkInEndpoint rest))
     (Some (mkOutEndpoint
              (sent oep ++ [command_packet OPEN_SESSION (_transaction_id self) [1];
                            command_packet SET_REMOTE_MODE 0 [1];
                            command_packet SET_EVENT_MODE 1 [1]]) []))
     2,
   Ok tt).
Proof.
  intros Hready Hf H1 H2 H3. unfold initialize_eos_session.
  unfold bind at 1.
  rewrite (open_session_response self oep OK r1 _ Hready H1).
  cbn [Z.eqb Pos.eqb OK]. rewrite Hf. cbn [tl].
  unfold bind at 1.
  rewrite (_send_canon_command_response _
             (mkOutEndpoint
                (sent oep ++ [command_packet OPEN_SESSION (_transaction_id self) [1]]) [])
             SET_REMOTE_MODE [1] OK r2 (ReadOk r3 :: rest));
    [|repeat split; reflexivity|reflexivity|exact u32_params_one|exact H2].
  cbn [Z.eqb Pos.eqb OK]. unfold after_call.
  cbn [sent faults tl _transaction_id Z.add].
  rewrite (_send_canon_command_response _
             (mkOutEndpoint
                ((sent oep ++ [command_packet OPEN_SESSION (_transaction_id self) [1]]) ++
                 [command_packet SET_REMOTE_MODE 0 [1]]) [])
             SET_EVENT_MODE [1] OK r3 rest);
    [|repeat split; reflexivity|reflexivity|exact u32_params_one|exact H3].
  cbn [Z.eqb Pos.eqb OK]. unfold after_call.
  cbn [sent faults tl _transaction_id Z.add Pos.add Pos.succ].
  rewrite <- !app_assoc. reflexivity.
Qed.

Lemma initialize_eos_session_sequence_witness :
  initialize_eos_session sample_session_transport =
  (mkUSBTransport (Some (mkInEndpoint []))
     (Some (mkOutEndpoint [command_packet OPEN_SESSION 9 [1];
                           command_packet SET_REMOTE_MODE 0 [1];
                           command_packet SET_EVENT_MODE 1 [1]] []))
     2,
   Ok tt).
Proof.
  apply (initialize_eos_session_sequence sample_session_transport
           (mkOutEndpoint [] []) (response_container OK 9)
           (response_container OK 0) (response_container OK 1) []);
    try (apply response_container_with; reflexivity);
    try reflexivity.
  repeat split; reflexivity.
Defined.

(** X10: [initialize_eos_session] stops at the first command the device
    refuses.  A response code other than OK to OpenSession raises the error
    for a failed open after one container; to SetRemoteMode it raises the
    command error with that operation and code after two containers, with
    the counter at 1; to SetEventMode likewise after three, with the counter
    at 2.  Nothing is written after the refusal and the later reads stay
    pending. *)
Theorem initialize_eos_session_stops_at_refusal (self : USBTransport)
    (oep : OutEndpoint) (code : Z) :
  faults oep = [] -> code <> OK ->
  let open := command_packet OPEN_SESSION (_transaction_id self) [1] in
  let remote := command_packet SET_REMOTE_MODE 0 [1] in
  let event := command_packet SET_EVENT_MODE 1 [1] in
  (forall r1 rest,
     ready self (ReadOk r1 :: rest) oep -> response_with code r1 ->
     initialize_eos_session self =
     (mkUSBTransport (Some (mkInEndpoint rest))
                     (Some (mkOutEndpoint (sent oep ++ [open]) []))
                     (_transaction_id self + 1),
      Raise (RuntimeError (FailedToOpenSession code))))
  /\ (forall r1 r2 rest,
     ready self (ReadOk r1 :: ReadOk r2 :: rest) oep ->
     response_with OK r1 -> response_with code r2 ->
     initialize_eos_session self =
     (mkUSBTransport (Some (mkInEndpoint rest))
                     (Some (mkOutEndpoint (sent oep ++ [open; remote]) [])) 1,
      Raise (RuntimeError (CommandFailed SET_REMOTE_MODE code))))
  /\ (forall r1 r2 r3 rest,
     ready self (ReadOk r1 :: ReadOk r2 :: ReadOk r3 :: rest) oep ->
     response_with OK r1 -> response_with OK r2 -> response_with code r3 ->
     initialize_eos_session self =
     (mkUSBTransport (Some (mkInEndpoint rest))
                     (Some (mkOutEndpoint (sent oep ++ [open; remote; event]) [])) 2,
      Raise (RuntimeError (CommandFailed SET_EVENT_MODE code)))).
Proof.
  intros Hf Hcode open remote event.
  assert (Hne : (code =? OK) = false) by (apply Z.eqb_neq; assumption).
  split; [|split].
  - intros r1 rest Hready H1. unfold initialize_eos_session. unfold bind at 1.
    rewrite (open_session_response self oep code r1 rest Hready H1).
    rewrite Hne. unfold after_call. rewrite Hf. reflexivity.
  - intros r1 r2 rest Hready H1 H2. unfold initialize_eos_session.
    unfold bind at 1.
    rewrite (open_session_response self oep OK r1 _ Hready H1).
    cbn [Z.eqb Pos.eqb OK]. rewrite Hf. cbn [tl].
    unfold bind at 1.
    rewrite (_send_canon_command_response _
               (mkOutEndpoint (sent oep ++ [open]) [])
               SET_REMOTE_MODE [1] code r2 rest);
      [|repeat split; reflexivity|reflexivity|exact u32_params_one|exact H2].
    rewrite Hne. unfold after_call.
    cbn [sent faults tl _transaction_id Z.add].
    rewrite <- !app_assoc. reflexivity.
  - intros r1 r2 r3 rest Hready H1 H2 H3. unfold initialize_eos_session.
    unfold bind at 1.
    rewrite (open_session_response self oep OK r1 _ Hready H1).
    cbn [Z.eqb Pos.eqb OK]. rewrite Hf. cbn [tl].
    unfold bind at 1.
    rewrite (_send_canon_command_response _
               (mkOutEndpoint (sent oep ++ [open]) [])
               SET_REMOTE_MODE [1] OK r2 (ReadOk r3 :: rest));
      [|repeat split; reflexivity|reflexivity|exact u32_params_one|exact H2].
    cbn [Z.eqb Pos.eqb OK]. unfold after_call.
    cbn [sent faults tl _transaction_id Z.add].
    rewrite (_send_canon_command_response _
               (mkOutEndpoint ((sent oep ++ [open]) ++ [remote]) [])
               SET_EVENT_MODE [1] code r3 rest);
      [|repeat split; reflexivity|reflexivity|exact u32_params_one|exact H3].
    rewrite Hne. unfold after_call.
    cbn [sent faults tl _transaction_id Z.add Pos.add Pos.succ].
    rewrite <- !app_assoc. reflexivity.
Qed.

Lemma initialize_eos_session_stops_at_refusal_witness :
  initialize_eos_session
    (mkUSBTransport (Some (mkInEndpoint [ReadOk (response_container OK 9);
                                         ReadOk (response_container DEVICE_BUSY 0);
                                         ReadOk (response_container OK 1)]))
                    (Some (mkOutEndpoint [] [])) 9) =
  (mkUSBTransport (Some (mkInEndpoint [ReadOk (response_container OK 1)]))
     (Some (mkOutEndpoint [command_packet OPEN_SESSION 9 [1];
                           command_packet SET_REMOTE_MODE 0 [1]] []))
     1,
   Raise (RuntimeError (CommandFailed SET_REMOTE_MODE DEVICE_BUSY))).
Proof.
  apply (proj1 (proj2 (initialize_eos_session_stops_at_refusal
           (mkUSBTransport (Some (mkInEndpoint [ReadOk (response_container OK 9);
                                                ReadOk (response_container DEVICE_BUSY 0);
                                                ReadOk (response_container OK 1)]))
                           (Some (mkOutEndpoint [] [])) 9)
           (mkOutEndpoint [] []) DEVICE_BUSY eq_refl ltac:(discriminate)))
           (response_container OK 9) (response_container DEVICE_BUSY 0)
           [ReadOk (response_container OK 1)]);
    try (apply response_container_with; reflexivity).
  repeat split; reflexivity.
Defined.

(** * Further properties of the event stream *)

Lemma le_uint_u32 (bs : bytes) : len bs <= 4 -> 0 <= le_uint bs < 2 ^ 32.
Proof.
  intro H. split; [apply le_uint_nonneg|].
  pose proof (le_uint_lt bs) as Hlt. pose proof (len_nonneg bs) as Hn.
  assert (256 ^ len bs <= 256 ^ 4) by (apply Z.pow_le_mono_r; lia).
  change (256 ^ 4) with (2 ^ 32) in *. lia.
Qed.

Lemma spec_property_events_well_formed (data : bytes) (offset : Z) :
  Forall well_formed_event (spec_property_events data offset).
Proof.
  unfold spec_property_events.
  assert (Hcode : 0 <= le_uint (slice (record_data_at data offset) 0 4) < 2 ^ 32).
  { apply le_uint_u32. rewrite len_slice by lia. lia. }
  destruct (len (payload_at data offset) =? 4) eqn:E4.
  - apply Z.eqb_eq in E4. repeat constructor; cbn [property_code value];
      try apply Hcode; apply le_uint_u32; lia.
  - apply Z.eqb_neq in E4.
    destruct (0 <? len (payload_at data offset)) eqn:E0; [|constructor].
    apply Z.ltb_lt in E0. repeat constructor; cbn [property_code value];
      try apply Hcode; try assumption.
    intro Hnil. rewrite Hnil in E0. cbn in E0. lia.
Qed.

Lemma event_loop_well_formed (data : bytes) (offset : Z) :
  0 <= offset ->
  exists evs, event_loop data offset = Ok evs /\ Forall well_formed_event evs.
Proof.
  remember (Z.to_nat (len data - offset)) as n eqn:Hn.
  revert offset Hn.
  induction n as [n IH] using lt_wf_ind. intros offset Hn Ho.
  rewrite event_loop_eq, event_iteration_eq by assumption.
  destruct (offset + 8 <=? len data) eqn:E8;
    [|exists []; split; [reflexivity|constructor]].
  apply Z.leb_le in E8.
  destruct ((record_len_at data offset =? 0) || (event_code_at data offset =? 0)) eqn:Ez;
    [exists []; split; [reflexivity|constructor]|].
  apply orb_false_iff in Ez. destruct Ez as [EL _]. apply Z.eqb_neq in EL.
  pose proof (record_len_at_nonneg data offset) as HL.
  destruct (IH (Z.to_nat (len data - (offset + record_len_at data offset)))
               ltac:(lia) (offset + record_len_at data offset) eq_refl ltac:(lia))
    as (rest & Hrest & Hwf).
  rewrite Hrest. cbn [bind_result]. eexists. split; [reflexivity|].
  apply Forall_app. split; [|exact Hwf].
  destruct (event_code_at data offset =? PROP_VALUE_CHANGED);
    [apply spec_property_events_well_formed|constructor].
Qed.

(** X11: every event that [_parse_event_data] yields, for any buffer, has a
    property code that is a u32 and either an integer value that is a u32
    or a raw-bytes value that is not empty and not 4 bytes long: a 4-byte
    value never comes out as bytes, whatever the buffer holds. *)
Theorem parsed_events_well_formed (data : bytes) :
  exists evs, _parse_event_data data = Ok evs /\ Forall well_formed_event evs.
Proof. apply event_loop_well_formed. lia. Qed.

(** ** Records are decoded independently *)

Lemma slice_app_shift {A : Type} (pre l : list A) (a b : Z) :
  0 <= a -> 0 <= b ->
  slice (pre ++ l) (len pre + a) (len pre + b) = slice l a b.
Proof.
  intros Ha Hb. pose proof (len_nonneg pre).
  rewrite !slice_nonneg by lia.
  replace (len pre + b - (len pre + a)) with (b - a) by lia.
  f_equal. rewrite skipn_app.
  rewrite skipn_all2 by (unfold len in *; lia).
  cbn [app]. f_equal. unfold len. lia.
Qed.

Lemma slice_app_left {A : Type} (l1 l2 : list A) (a b : Z) :
  0 <= a -> 0 <= b <= len l1 ->
  slice (l1 ++ l2) a b = slice l1 a b.
Proof.
  intros Ha Hb. rewrite !slice_nonneg by lia.
  rewrite skipn_app, firstn_app.
  rewrite length_skipn.
  replace (Z.to_nat (b - a) - (length l1 - Z.to_nat a))%nat with 0%nat
    by (unfold len in *; lia).
  cbn [firstn]. apply app_nil_r.
Qed.

(** One pass at [len pre + offset] of a buffer that starts with [pre] is the
    pass at [offset] of the rest, moved by [len pre]. *)
Lemma event_iteration_shift (pre data : bytes) (offset : Z) :
  0 <= offset ->
  event_iteration (pre ++ data) (len pre + offset) =
  match event_iteration data offset with
  | Ok (Advance evs offset') => Ok (Advance evs (len pre + offset'))
  | r => r
  end.
Proof.
  intro Ho. pose proof (len_nonneg pre) as Hp.
  rewrite !event_iteration_eq by lia.
  assert (HL : record_len_at (pre ++ data) (len pre + offset) =
               record_len_at data offset).
  { unfold record_len_at. rewrite <- Z.add_assoc.
    rewrite slice_app_shift by lia. reflexivity. }
  assert (HC : event_code_at (pre ++ data) (len pre + offset) =
               event_code_at data offset).
  { unfold event_code_at. rewrite <- !Z.add_assoc.
    rewrite slice_app_shift by lia. reflexivity. }
  assert (HD : record_data_at (pre ++ data) (len pre + offset) =
               record_data_at data offset).
  { unfold record_data_at. rewrite HL. rewrite <- !Z.add_assoc.
    pose proof (record_len_at_nonneg data offset).
    rewrite slice_app_shift by lia. reflexivity. }
  assert (HE : spec_property_events (pre ++ data) (len pre + offset) =
               spec_property_events data offset).
  { unfold spec_property_events, payload_at. rewrite HD. reflexivity. }
  rewrite HL, HC, HE, len_app.
  replace (len pre + offset + 8 <=? len pre + len data)
    with (offset + 8 <=? len data).
  2:{ destruct (offset + 8 <=? len data) eqn:E; symmetry;
        [apply Z.leb_le; apply Z.leb_le in E|apply Z.leb_gt; apply Z.leb_gt in E];
        lia. }
  destruct (offset + 8 <=? len data); [|reflexivity].
  destruct ((record_len_at data offset =? 0) || (event_code_at data offset =? 0));
    [reflexivity|].
  rewrite Z.add_assoc. reflexivity.
Qed.

Lemma event_loop_shift (pre data : bytes) (offset : Z) :
  0 <= offset ->
  event_loop (pre ++ data) (len pre + offset) = event_loop data offset.
Proof.
  remember (Z.to_nat (len data - offset)) as n eqn:Hn.
  revert offset Hn.
  induction n as [n IH] using lt_wf_ind. intros offset Hn Ho.
  rewrite (event_loop_eq (pre ++ data)), (event_loop_eq data).
  rewrite event_iteration_shift by assumption.
  pose proof (event_iteration_eq data offset Ho) as Hit.
  destruct (event_iteration data offset) as [[|evs offset']|e]; try reflexivity.
  destruct (offset + 8 <=? len data) eqn:E8; [|discriminate].
  apply Z.leb_le in E8.
  destruct ((record_len_at data offset =? 0) || (event_code_at data offset =? 0)) eqn:Ez;
    [discriminate|].
  apply orb_false_iff in Ez. destruct Ez as [EL _]. apply Z.eqb_neq in EL.
  pose proof (record_len_at_nonneg data offset) as HL.
  injection Hit as _ ->.
  rewrite (IH (Z.to_nat (len data - (offset + record_len_at data offset)))
              ltac:(lia) (offset + record_len_at data offset) eq_refl ltac:(lia)).
  reflexivity.
Qed.

(** X12: parsing never looks back: from any offset inside the buffer the
    loop yields what [_parse_event_data] yields for the rest of the buffer
    on its own; the bytes before the offset have no influence. *)
Theorem event_loop_is_parse_of_the_rest (data : bytes) (offset : Z) :
  0 <= offset <= len data ->
  event_loop data offset = _parse_event_data (skipn (Z.to_nat offset) data).
Proof.
  intros [Ho Hl]. unfold _parse_event_data.
  assert (Hpre : len (firstn (Z.to_nat offset) data) + 0 = offset).
  { unfold len in *. rewrite length_firstn. lia. }
  rewrite <- (event_loop_shift (firstn (Z.to_nat offset) data)
                (skipn (Z.to_nat offset) data) 0) by lia.
  rewrite firstn_skipn, Hpre. reflexivity.
Qed.

Lemma event_loop_is_parse_of_the_rest_witness :
  event_loop sample_mixed 12 = _parse_event_data (skipn 12 sample_mixed).
Proof.
  apply (event_loop_is_parse_of_the_rest sample_mixed 12).
  vm_compute. split; congruence.
Defined.

(** X13: records are decoded one after the other: when a buffer starts with
    one whole record (at least 8 bytes, its length field equal to its size,
    its event code not 0), parsing the buffer yields the events of that
    record followed by the events of the rest parsed on its own. *)
Theorem whole_record_then_rest (record rest : bytes) :
  8 <= len record ->
  record_len_at record 0 = len record ->
  event_code_at record 0 <> 0 ->
  _parse_event_data (record ++ rest) =
  let* e1 := _parse_event_data record in
  let* e2 := _parse_event_data rest in
  Ok (e1 ++ e2).
Proof.
  intros H8 HL HC. unfold _parse_event_data.
  pose proof (len_nonneg rest) as Hr.
  assert (HL' : record_len_at (record ++ rest) 0 = len record).
  { unfold record_len_at in *. rewrite slice_app_left by lia. exact HL. }
  assert (HC' : event_code_at (record ++ rest) 0 = event_code_at record 0).
  { unfold event_code_at. rewrite slice_app_left by lia. reflexivity. }
  assert (HD : record_data_at (record ++ rest) 0 = record_data_at record 0).
  { unfold record_data_at. rewrite HL', HL. apply slice_app_left; lia. }
  assert (HE : spec_property_events (record ++ rest) 0 = spec_property_events record 0).
  { unfold spec_property_events, payload_at. rewrite HD. reflexivity. }
  rewrite <- (event_loop_shift record rest 0) by lia. rewrite Z.add_0_r.
  rewrite (event_loop_eq (record ++ rest) 0), (event_loop_eq record 0).
  rewrite !event_iteration_eq by lia.
  rewrite HL', HC', HE, HL, len_app.
  replace (0 + 8 <=? len record + len rest) with true
    by (symmetry; apply Z.leb_le; lia).
  replace (0 + 8 <=? len record) with true by (symmetry; apply Z.leb_le; lia).
  replace (len record =? 0) with false by (symmetry; apply Z.eqb_neq; lia).
  replace (event_code_at record 0 =? 0) with false
    by (symmetry; apply Z.eqb_neq; assumption).
  cbn [orb]. rewrite !Z.add_0_l.
  rewrite (event_loop_eq record (len record)), event_iteration_eq by lia.
  replace (len record + 8 <=? len record) with false
    by (symmetry; apply Z.leb_gt; lia).
  cbn [bind_result]. rewrite app_nil_r.
  reflexivity.
Qed.

Lemma whole_record_then_rest_witness :
  _parse_event_data (firstn 12 sample_mixed ++ skipn 12 sample_mixed) =
  let* e1 := _parse_event_data (firstn 12 sample_mixed) in
  let* e2 := _parse_event_data (skipn 12 sample_mixed) in
  Ok (e1 ++ e2).
Proof.
  apply (whole_record_then_rest (firstn 12 sample_mixed) (skipn 12 sample_mixed));
    vm_compute; congruence.
Defined.

(** * Further properties of [get_shutter_count] *)

Lemma scan_shutter_count_app (a b : list EOSPropertyValue) :
  scan_shutter_count (a ++ b) =
  match scan_shutter_count a with
  | Ok None => scan_shutter_count b
  | r => r
  end.
Proof.
  induction a as [|[code v] a IH]; [reflexivity|].
  cbn [app scan_shutter_count property_code value].
  destruct (code =? SHUTTER_RELEASE_COUNTER); [|exact IH].
  destruct v as [n|bs]; [exact IH|].
  destruct (16 <=? len bs) eqn:E16; [|exact IH].
  apply Z.leb_le in E16. rewrite unpack_II_counters by assumption. reflexivity.
Qed.

(** X14: the first counter event decides: once the scan of a list of events
    has found counters, events that follow change nothing; while it has
    found none, the outcome is that of the events that follow.  The counters
    found are two u32 values, and they come from an event of the list with
    the property code 0xD167. *)
Theorem first_counter_event_decides (a b : list EOSPropertyValue) :
  (forall m t, scan_shutter_count a = Ok (Some (m, t)) ->
     scan_shutter_count (a ++ b) = Ok (Some (m, t))
     /\ 0 <= m < 2 ^ 32 /\ 0 <= t < 2 ^ 32
     /\ exists e, In e a /\ property_code e = 0xD167)
  /\ (scan_shutter_count a = Ok None ->
      scan_shutter_count (a ++ b) = scan_shutter_count b).
Proof.
  split.
  - intros m t H. split; [rewrite scan_shutter_count_app, H; reflexivity|].
    clear b. induction a as [|[code v] a IH]; [discriminate|].
    cbn [scan_shutter_count property_code value] in H.
    assert (Hrest : scan_shutter_count a = Ok (Some (m, t)) ->
                    0 <= m < 2 ^ 32 /\ 0 <= t < 2 ^ 32 /\
                    exists e, In e ({| property_code := code; value := v |} :: a) /\
                              property_code e = 0xD167).
    { intro Ha. destruct (IH Ha) as (Hm & Ht & e & Hin & He).
      repeat split; try assumption; try apply Hm; try apply Ht.
      exists e. split; [right; exact Hin|exact He]. }
    destruct (code =? SHUTTER_RELEASE_COUNTER) eqn:Ec; [|exact (Hrest H)].
    destruct v as [n|bs]; [exact (Hrest H)|].
    destruct (16 <=? len bs) eqn:E16; [|exact (Hrest H)].
    apply Z.leb_le in E16. rewrite unpack_II_counters in H by assumption.
    cbn [bind_result] in H. injection H as <- <-.
    split; [apply le_uint_u32; rewrite len_slice by lia; lia|].
    split; [apply le_uint_u32; rewrite len_slice by lia; lia|].
    eexists. split; [left; reflexivity|]. apply Z.eqb_eq in Ec. exact Ec.
  - intro H. rewrite scan_shutter_count_app, H. reflexivity.
Qed.

Lemma first_counter_event_decides_witness :
  scan_shutter_count
    ([mkEOSPropertyValue 0xD167 (VInt 7);
      mkEOSPropertyValue 0xD167
        (VBytes (bytes_of [0; 0; 0; 0; 0; 0; 0; 0; 1; 0; 0; 0; 2; 0; 0; 0]))] ++
     [mkEOSPropertyValue 0xD167
        (VBytes (bytes_of [0; 0; 0; 0; 0; 0; 0; 0; 3; 0; 0; 0; 4; 0; 0; 0]))]) =
  Ok (Some (1, 2)).
Proof.
  apply (proj1 (first_counter_event_decides _ _)). vm_compute. reflexivity.
Defined.

(** * Queries over the wire *)

Lemma data_container_fields (code tid : Z) (payload : bytes) :
  fits 16 code = true -> fits 32 tid = true -> fits 32 (12 + len payload) = true ->
  12 <= len (data_container code tid payload)
  /\ pkt_type_of (data_container code tid payload) = DATA
  /\ pkt_len_of (data_container code tid payload) = 12 + len payload
  /\ slice_from (data_container code tid payload) 12 = payload.
Proof.
  intros Hc Ht Hl.
  pose proof (pack_IHHI_ok (12 + len payload) DATA code tid Hl eq_refl Hc Ht) as Hp.
  set (header := le_bytes 4 (12 + len payload) ++ le_bytes 2 DATA ++
                 le_bytes 2 code ++ le_bytes 4 tid) in *.
  assert (Hd : data_container code tid payload = header ++ payload).
  { unfold data_container, header. rewrite <- !app_assoc. reflexivity. }
  assert (Hlh : len header = 12).
  { unfold header. rewrite !len_app, !len_le_bytes. reflexivity. }
  destruct (header_fields _ _ _ _ header payload Hp) as (F0 & F1 & _ & _).
  rewrite Hd. pose proof (len_nonneg payload).
  repeat split; try assumption.
  - rewrite len_app. lia.
  - rewrite slice_from_nonneg by lia.
    rewrite skipn_app, skipn_all2 by (unfold len in *; lia).
    replace (Z.to_nat 12 - length header)%nat with 0%nat by (unfold len in *; lia).
    reflexivity.
Qed.

(** A Data container that arrives whole, then the Response. *)
Lemma receive_data_then_response (code tid rc : Z) (payload resp : bytes)
    (rest : list usb_read) (rd : bytes) :
  fits 16 code = true -> fits 32 tid = true -> fits 32 (12 + len payload) = true ->
  response_with rc resp ->
  receive (ReadOk (data_container code tid payload) :: ReadOk resp :: rest) rd =
  (rest, Ok (rc, payload)).
Proof.
  intros Hc Ht Hl (H12 & Hrt & Hrc).
  destruct (data_container_fields code tid payload Hc Ht Hl) as (D12 & Dt & Dl & Dp).
  rewrite receive_eq by assumption. rewrite Dt, Dl, Dp.
  cbn [Z.eqb Pos.eqb DATA read_more].
  replace (len payload + 12 <? 12 + len payload) with false
    by (symmetry; apply Z.ltb_ge; lia).
  replace (12 + len payload - 12) with (len payload) by lia.
  unfold slice_to. rewrite slice_all by lia.
  rewrite receive_eq by assumption. rewrite Hrt, Hrc. reflexivity.
Qed.

Lemma send_command_None (op : Z) (data : option bytes) (self : USBTransport) :
  send_command op None data self = send_command op (Some []) data self.
Proof. reflexivity. Qed.

Lemma u32_params_nil : u32_params [].
Proof. split; [constructor|reflexivity]. Qed.

(** X15: when the device answers GetEvent with one Data container holding
    [payload] and an OK response, [get_event] returns the events parsed
    from [payload] and [get_shutter_count] the counters of the first
    counter event among them.  The transaction id the device puts in its
    containers plays no part: it is never compared with the id of the
    command. *)
Theorem shutter_count_over_the_wire (self : USBTransport) (oep : OutEndpoint)
    (tid : Z) (payload resp : bytes) (rest : list usb_read) :
  ready self (ReadOk (data_container GET_EVENT tid payload) :: ReadOk resp :: rest) oep ->
  fits 32 tid = true -> fits 32 (12 + len payload) = true ->
  response_with OK resp ->
  let self' := after_call self oep (command_packet GET_EVENT (_transaction_id self) [])
                          rest in
  exists events,
    _parse_event_data payload = Ok events
    /\ get_event self = (self', Ok events)
    /\ get_shutter_count self = (self', Ok (spec_shutter_counters events)).
Proof.
  intros Hready Ht Hl Hresp self'.
  destruct (event_loop_total payload 0 ltac:(lia)) as [events Hev].
  exists events.
  assert (Hget : get_event self = (self', Ok events)).
  { unfold get_event, bind. rewrite send_command_None.
    rewrite (send_command_ready self _ oep GET_EVENT [] Hready eq_refl u32_params_nil).
    rewrite (receive_data_then_response GET_EVENT tid OK payload resp rest []
               eq_refl Ht Hl Hresp).
    cbn [fst snd as_receive_failure Z.eqb Pos.eqb OK negb]. unfold lift.
    unfold _parse_event_data. rewrite Hev. reflexivity. }
  split; [exact Hev|]. split; [exact Hget|].
  unfold get_shutter_count, bind. rewrite Hget. unfold lift.
  rewrite scan_shutter_count_spec. reflexivity.
Qed.

Lemma shutter_count_over_the_wire_witness :
  exists events,
    _parse_event_data sample_events = Ok events
    /\ get_event sample_event_transport =
         (after_call sample_event_transport (mkOutEndpoint [] [])
                     (command_packet GET_EVENT 0 []) [],
          Ok events)
    /\ get_shutter_count sample_event_transport =
         (after_call sample_event_transport (mkOutEndpoint [] [])
                     (command_packet GET_EVENT 0 []) [],
          Ok (spec_shutter_counters events)).
Proof.
  apply (shutter_count_over_the_wire sample_event_transport (mkOutEndpoint [] [])
           0 sample_events (response_container OK 0) []);
    try reflexivity.
  - repeat split; reflexivity.
  - apply response_container_with; reflexivity.
Defined.

(** X16: a response code other than OK makes the queries fail with the
    code.  When the first container read is a Response with such a code,
    [get_event] and [get_shutter_count] raise the error for a failed
    GetEvent, and [get_device_info] raises the error for failed device
    info; nothing is parsed, and the one Command container has been sent. *)
Theorem queries_refused (self : USBTransport) (oep : OutEndpoint) (code : Z)
    (raw : bytes) (rest : list usb_read) :
  ready self (ReadOk raw :: rest) oep -> response_with code raw -> code <> OK ->
  get_event self =
    (after_call self oep (command_packet GET_EVENT (_transaction_id self) []) rest,
     Raise (RuntimeError (GetEventFailed code)))
  /\ get_shutter_count self =
    (after_call self oep (command_packet GET_EVENT (_transaction_id self) []) rest,
     Raise (RuntimeError (GetEventFailed code)))
  /\ get_device_info self =
    (after_call self oep (command_packet GET_DEVICE_INFO (_transaction_id self) []) rest,
     Raise (RuntimeError (FailedToGetDeviceInfo code))).
Proof.
  intros Hready Hresp Hcode.
  assert (Hne : (code =? OK) = false) by (apply Z.eqb_neq; assumption).
  assert (Hget : get_event self =
    (after_call self oep (command_packet GET_EVENT (_transaction_id self) []) rest,
     Raise (RuntimeError (GetEventFailed code)))).
  { unfold get_event, bind. rewrite send_command_None.
    rewrite (send_command_response self oep GET_EVENT [] code raw rest Hready
               eq_refl u32_params_nil Hresp).
    cbn [fst]. rewrite Hne. reflexivity. }
  split; [exact Hget|]. split.
  - unfold get_shutter_count, bind. rewrite Hget. reflexivity.
  - unfold get_device_info, bind. rewrite send_command_None.
    rewrite (send_command_response self oep GET_DEVICE_INFO [] code raw rest Hready
               eq_refl u32_params_nil Hresp).
    cbn [fst]. rewrite Hne. reflexivity.
Qed.

Lemma queries_refused_witness :
  snd (get_shutter_count
         (sample_transport [ReadOk (response_container DEVICE_BUSY 0)])) =
  Raise (RuntimeError (GetEventFailed DEVICE_BUSY)).
Proof.
  rewrite (proj1 (proj2 (queries_refused
             (sample_transport [ReadOk (response_container DEVICE_BUSY 0)])
             (mkOutEndpoint [] []) DEVICE_BUSY (response_container DEVICE_BUSY 0) []
             ltac:(sample_ready)
             (response_container_with DEVICE_BUSY 0 eq_refl eq_refl)
             ltac:(discriminate)))).
  reflexivity.
Defined.

(** * Further properties of protocol strings and device info *)

Lemma utf16le_decode_length (b : bytes) (s : str) :
  utf16le_decode b = Ok s -> 2 * len s <= len b.
Proof.
  remember (length b) as n eqn:Hn. revert b s Hn.
  induction n as [n IH] using lt_wf_ind. intros b s Hn H.
  destruct b as [|lo [|hi rest]]; cbn [utf16le_decode] in H.
  - injection H as <-. cbn. lia.
  - discriminate.
  - cbn [length] in Hn.
    destruct (is_high_surrogate (code_unit lo hi)).
    + destruct rest as [|lo2 [|hi2 rest']]; [discriminate|discriminate|].
      cbn [length] in Hn.
      destruct (is_low_surrogate (code_unit lo2 hi2)); [|discriminate].
      destruct (utf16le_decode rest') as [s'|e] eqn:E; cbn [bind_result] in H;
        [|discriminate].
      injection H as <-.
      pose proof (IH (length rest') ltac:(lia) rest' s' eq_refl E).
      unfold len in *. cbn [length]. lia.
    + destruct (is_low_surrogate (code_unit lo hi)); [discriminate|].
      destruct (utf16le_decode rest) as [s'|e] eqn:E; cbn [bind_result] in H;
        [|discriminate].
      injection H as <-.
      pose proof (IH (length rest) ltac:(lia) rest s' eq_refl E).
      unfold len in *. cbn [length]. lia.
Qed.

Lemma count_byte_at_lt (data : bytes) (offset : Z) : count_byte_at data offset < 256.
Proof.
  unfold count_byte_at, byte_val.
  pose proof (Byte.to_N_bounded (nth (Z.to_nat offset) data x00)). lia.
Qed.

(** X17: [_read_ptp_string] stays inside the buffer and never moves back:
    from any offset that is not negative it returns, without raising, a
    string of at most 254 characters and a new offset that is at least the
    old one, at most 511 bytes further, and not beyond the end of the buffer
    (unless the old offset already was); at or beyond the end it returns the
    empty string and the offset unchanged. *)
Theorem read_ptp_string_in_bounds (data : bytes) (offset : Z) :
  0 <= offset ->
  exists s offset',
    _read_ptp_string data offset = Ok (s, offset')
    /\ offset <= offset' <= Z.max offset (len data)
    /\ offset' <= offset + 511
    /\ len s <= 254
    /\ (len data <= offset -> s = [] /\ offset' = offset).
Proof.
  intro Ho. rewrite _read_ptp_string_eq by assumption. cbv zeta.
  pose proof (count_byte_at_nonneg data offset) as HC0.
  pose proof (count_byte_at_lt data offset) as HC1.
  destruct (len data <=? offset) eqn:E.
  { apply Z.leb_le in E. exists [], offset.
    repeat split; try reflexivity; cbn; lia. }
  apply Z.leb_gt in E.
  destruct (count_byte_at data offset =? 0) eqn:EC.
  { exists [], (offset + 1). repeat split; try reflexivity; cbn; lia. }
  apply Z.eqb_neq in EC.
  destruct (len data <? offset + 1 + count_byte_at data offset * 2) eqn:EL.
  { exists [], (offset + 1). repeat split; try reflexivity; cbn; lia. }
  apply Z.ltb_ge in EL.
  eexists _, _. split; [reflexivity|].
  repeat split; try lia.
  destruct (utf16le_decode _) as [s|e] eqn:Ed; [|cbn; lia].
  apply utf16le_decode_length in Ed.
  rewrite len_slice in Ed by lia. lia.
Qed.

Lemma read_ptp_string_in_bounds_witness :
  exists s offset',
    _read_ptp_string sample_device_info 31 = Ok (s, offset')
    /\ 31 <= offset' <= Z.max 31 (len sample_device_info)
    /\ offset' <= 31 + 511
    /\ len s <= 254
    /\ (len sample_device_info <= 31 -> s = [] /\ offset' = 31).
Proof. apply (read_ptp_string_in_bounds sample_device_info 31). lia. Defined.

Lemma code_unit_of_Z (u : Z) :
  0 <= u < 0x10000 -> code_unit (byte_of_Z (u mod 256)) (byte_of_Z (u / 256)) = u.
Proof.
  intro Hu. unfold code_unit.
  rewrite !byte_val_of_Z.
  - pose proof (Z.div_mod u 256). lia.
  - split; [apply Z.div_pos; lia|apply Z.div_lt_upper_bound; lia].
  - apply Z.mod_pos_bound. lia.
Qed.

Lemma utf16le_decode_units (s : str) :
  Forall bmp_char s -> utf16le_decode (utf16le_units s) = Ok s.
Proof.
  induction 1 as [|u s Hu _ IH]; [reflexivity|].
  unfold utf16le_units in *. cbn [flat_map app utf16le_decode].
  rewrite code_unit_of_Z by (unfold bmp_char in Hu; lia).
  replace (is_high_surrogate u) with false
    by (symmetry; unfold is_high_surrogate, bmp_char in *;
        apply andb_false_iff; rewrite Z.leb_gt, Z.leb_gt; lia).
  replace (is_low_surrogate u) with false
    by (symmetry; unfold is_low_surrogate, bmp_char in *;
        apply andb_false_iff; rewrite Z.leb_gt, Z.leb_gt; lia).
  rewrite IH. reflexivity.
Qed.

Lemma len_utf16le_units (s : str) : len (utf16le_units s) = 2 * len s.
Proof.
  induction s as [|u s IH]; [reflexivity|].
  unfold utf16le_units in *. cbn [flat_map]. rewrite len_app, IH.
  unfold len. cbn [length]. lia.
Qed.

(** Reading a protocol string where one is laid out. *)
Lemma _read_ptp_string_encoded (pre post : bytes) (s : str) (t0 t1 : byte) :
  Forall bmp_char s -> len s <= 254 ->
  _read_ptp_string (pre ++ ptp_encode s t0 t1 ++ post) (len pre) =
  Ok (s, len pre + 1 + 2 * (len s + 1)).
Proof.
  intros Hs Hlen.
  pose proof (len_nonneg pre) as Hp. pose proof (len_nonneg s) as Hs0.
  pose proof (len_nonneg post) as Hpost.
  set (data := pre ++ ptp_encode s t0 t1 ++ post).
  assert (Hdata : data = (pre ++ [byte_of_Z (len s + 1)]) ++
                         utf16le_units s ++ ([t0; t1] ++ post)).
  { unfold data, ptp_encode. rewrite <- !app_assoc. cbn [app].
    rewrite <- ?app_assoc. reflexivity. }
  assert (Hld : len data = len pre + 1 + 2 * len s + 2 + len post).
  { rewrite Hdata, !len_app, len_utf16le_units. unfold len. cbn [length]. lia. }
  assert (HC : count_byte_at data (len pre) = len s + 1).
  { unfold count_byte_at, data, ptp_encode.
    replace (Z.to_nat (len pre)) with (length pre) by (unfold len; lia).
    cbn [app]. rewrite nth_middle. apply byte_val_of_Z. lia. }
  rewrite _read_ptp_string_eq by lia. cbv zeta. rewrite HC.
  replace (len data <=? len pre) with false by (symmetry; apply Z.leb_gt; lia).
  replace (len s + 1 =? 0) with false by (symmetry; apply Z.eqb_neq; lia).
  replace (len data <? len pre + 1 + (len s + 1) * 2) with false
    by (symmetry; apply Z.ltb_ge; lia).
  assert (Hslice : slice data (len pre + 1) (len pre + 1 + (len s + 1) * 2 - 2) =
                   utf16le_units s).
  { rewrite Hdata.
    replace (len pre + 1) with (len (pre ++ [byte_of_Z (len s + 1)]))
      by (rewrite len_app; reflexivity).
    replace (len (pre ++ [byte_of_Z (len s + 1)]) + (len s + 1) * 2 - 2)
      with (len (pre ++ [byte_of_Z (len s + 1)]) + len (utf16le_units s))
      by (rewrite len_utf16le_units; lia).
    apply slice_app_middle. }
  rewrite Hslice, utf16le_decode_units by assumption.
  f_equal. f_equal. lia.
Qed.

(** X18: decoding inverts the wire format and keeps the fields aligned:
    wherever in a buffer two protocol strings of at most 254 characters of
    the Basic Multilingual Plane follow each other (each a count byte, the
    UTF-16LE code units and two terminator bytes), [_read_ptp_string] at the
    first byte returns exactly the characters of the first one and the
    offset of the second, and there it returns the characters of the second
    and the offset of the byte after it, whatever the terminator bytes and
    the bytes around the strings are. *)
Theorem read_ptp_string_round_trip (pre post : bytes) (s1 s2 : str)
    (t0 t1 t2 t3 : byte) :
  Forall bmp_char s1 -> len s1 <= 254 -> Forall bmp_char s2 -> len s2 <= 254 ->
  let data := pre ++ ptp_encode s1 t0 t1 ++ ptp_encode s2 t2 t3 ++ post in
  let offset1 := len pre + 1 + 2 * (len s1 + 1) in
  _read_ptp_string data (len pre) = Ok (s1, offset1)
  /\ _read_ptp_string data offset1 = Ok (s2, offset1 + 1 + 2 * (len s2 + 1)).
Proof.
  intros H1 L1 H2 L2 data offset1. split.
  - apply _read_ptp_string_encoded; assumption.
  - assert (Hl : len (pre ++ ptp_encode s1 t0 t1) = offset1).
    { unfold offset1, ptp_encode. rewrite len_app.
      change (len (byte_of_Z (len s1 + 1) :: utf16le_units s1 ++ [t0; t1]))
        with (Z.of_nat (S (length (utf16le_units s1 ++ [t0; t1])))).
      rewrite length_app. pose proof (len_utf16le_units s1) as Hu.
      unfold len in *. cbn [length]. lia. }
    unfold data. rewrite app_assoc, <- Hl.
    apply _read_ptp_string_encoded; assumption.
Qed.

Lemma read_ptp_string_round_trip_witness :
  _read_ptp_string (bytes_of [9; 9] ++ ptp_encode [0x41; 0x3A9; 0x20AC] x07 x08 ++
                    ptp_encode [0x42] x00 x00 ++ [])
                   (len (bytes_of [9; 9])) =
  Ok ([0x41; 0x3A9; 0x20AC], len (bytes_of [9; 9]) + 1 + 2 * (len [0x41; 0x3A9; 0x20AC] + 1)).
Proof.
  apply (read_ptp_string_round_trip (bytes_of [9; 9]) [] [0x41; 0x3A9; 0x20AC] [0x42]
           x07 x08 x00 x00).
  - repeat constructor; unfold bmp_char; lia.
  - vm_compute. congruence.
  - repeat constructor; unfold bmp_char; lia.
  - vm_compute. congruence.
Defined.

Lemma len_ptp_encode (s : str) (t0 t1 : byte) :
  len (ptp_encode s t0 t1) = 1 + 2 * (len s + 1).
Proof.
  unfold ptp_encode.
  change (len (byte_of_Z (len s + 1) :: utf16le_units s ++ [t0; t1]))
    with (Z.of_nat (S (length (utf16le_units s ++ [t0; t1])))).
  rewrite length_app. pose proof (len_utf16le_units s) as Hu.
  unfold len in *. cbn [length]. lia.
Qed.

Lemma len_uint16_array (a : list Z) : len (uint16_array a) = 4 + 2 * len a.
Proof.
  unfold uint16_array. rewrite len_app, len_le_bytes. f_equal.
  induction a as [|x a IH]; [reflexivity|].
  cbn [flat_map]. rewrite len_app, len_le_bytes, IH.
  unfold len. cbn [length]. lia.
Qed.

Lemma _skip_uint16_array_encoded (pre post : bytes) (a : list Z) :
  len a < 2 ^ 32 ->
  _skip_uint16_array (pre ++ uint16_array a ++ post) (len pre) =
  Ok (len (pre ++ uint16_array a)).
Proof.
  intro Ha. pose proof (len_nonneg pre). pose proof (len_nonneg a).
  pose proof (len_nonneg post).
  rewrite _skip_uint16_array_eq by lia.
  rewrite !len_app, len_uint16_array.
  replace (len pre + (4 + 2 * len a + len post) - len pre <? 4) with false
    by (symmetry; apply Z.ltb_ge; lia).
  unfold uint16_array at 1. rewrite <- app_assoc.
  replace (len pre + 4) with (len pre + len (le_bytes 4 (len a)))
    by (rewrite len_le_bytes; reflexivity).
  rewrite slice_app_middle, le_uint_le_bytes by (cbn; lia).
  rewrite len_le_bytes. f_equal. lia.
Qed.

Lemma skip_arrays_encoded (arrays : list (list Z)) :
  forall pre post : bytes,
    Forall (fun a => len a < 2 ^ 32) arrays ->
    skip_arrays (length arrays) (pre ++ flat_map uint16_array arrays ++ post) (len pre) =
    Ok (len (pre ++ flat_map uint16_array arrays)).
Proof.
  induction arrays as [|a arrays IH]; intros pre post Hall.
  - cbn [flat_map app length skip_arrays]. rewrite app_nil_r. reflexivity.
  - inversion Hall as [|? ? Ha Hrest]; subst.
    cbn [flat_map length skip_arrays]. rewrite <- app_assoc.
    rewrite _skip_uint16_array_encoded by assumption. cbn [bind_result].
    rewrite (app_assoc pre (uint16_array a)).
    rewrite IH by assumption. rewrite <- !app_assoc. reflexivity.
Qed.

(** X19: decoding inverts the layout of the dataset: for a dataset made of
    8 leading bytes, a vendor extension description, 2 bytes of functional
    mode, five arrays with any elements, then manufacturer, model and device
    version as protocol strings (each text of at most 254 characters of the
    Basic Multilingual Plane), [_parse_device_info] returns exactly these
    three strings, whatever follows them. *)
Theorem device_info_round_trip (head : bytes) (desc : str) (mode : bytes)
    (arrays : list (list Z)) (info : DeviceInfo) (tail : bytes) :
  len head = 8 -> len mode = 2 -> length arrays = 5%nat ->
  Forall (fun a => len a < 2 ^ 32) arrays ->
  ptp_text desc -> ptp_text (manufacturer info) -> ptp_text (model info) ->
  ptp_text (device_version info) ->
  _parse_device_info (device_info_dataset head desc mode arrays info tail) = Ok info.
Proof.
  intros Hh Hm Hn Harr [Hd Ld] [Hma Lma] [Hmo Lmo] [Hv Lv].
  destruct info as [man mdl ver]. cbn [manufacturer model device_version] in *.
  unfold _parse_device_info, device_info_dataset.
  cbn [manufacturer model device_version].
  set (e0 := ptp_encode desc x00 x00). set (arrs := flat_map uint16_array arrays).
  set (e1 := ptp_encode man x00 x00). set (e2 := ptp_encode mdl x00 x00).
  set (e3 := ptp_encode ver x00 x00).
  set (data := head ++ e0 ++ mode ++ arrs ++ e1 ++ e2 ++ e3 ++ tail).
  assert (R0 : _read_ptp_string data 8 = Ok (desc, len (head ++ e0))).
  { rewrite <- Hh. unfold data, e0. rewrite _read_ptp_string_encoded by assumption.
    rewrite len_app, len_ptp_encode. f_equal. f_equal. lia. }
  rewrite R0. cbn [bind_result].
  assert (S5 : skip_arrays 5 data (len (head ++ e0) + 2) =
               Ok (len ((head ++ e0 ++ mode) ++ arrs))).
  { replace (len (head ++ e0) + 2) with (len (head ++ e0 ++ mode))
      by (rewrite !len_app, Hm; lia).
    rewrite <- Hn. unfold data, arrs.
    replace (head ++ e0 ++ mode ++ flat_map uint16_array arrays ++ e1 ++ e2 ++ e3 ++ tail)
      with ((head ++ e0 ++ mode) ++ flat_map uint16_array arrays ++
            (e1 ++ e2 ++ e3 ++ tail))
      by (rewrite <- !app_assoc; reflexivity).
    apply skip_arrays_encoded. assumption. }
  rewrite S5. cbn [bind_result].
  assert (R1 : _read_ptp_string data (len ((head ++ e0 ++ mode) ++ arrs)) =
               Ok (man, len (((head ++ e0 ++ mode) ++ arrs) ++ e1))).
  { unfold data.
    replace (head ++ e0 ++ mode ++ arrs ++ e1 ++ e2 ++ e3 ++ tail)
      with (((head ++ e0 ++ mode) ++ arrs) ++ e1 ++ (e2 ++ e3 ++ tail))
      by (rewrite <- !app_assoc; reflexivity).
    unfold e1 at 1. rewrite _read_ptp_string_encoded by assumption.
    rewrite (len_app _ e1). unfold e1. rewrite len_ptp_encode. f_equal. f_equal. lia. }
  rewrite R1. cbn [bind_result].
  assert (R2 : _read_ptp_string data (len (((head ++ e0 ++ mode) ++ arrs) ++ e1)) =
               Ok (mdl, len ((((head ++ e0 ++ mode) ++ arrs) ++ e1) ++ e2))).
  { unfold data.
    replace (head ++ e0 ++ mode ++ arrs ++ e1 ++ e2 ++ e3 ++ tail)
      with ((((head ++ e0 ++ mode) ++ arrs) ++ e1) ++ e2 ++ (e3 ++ tail))
      by (rewrite <- !app_assoc; reflexivity).
    unfold e2 at 1. rewrite _read_ptp_string_encoded by assumption.
    rewrite (len_app _ e2). unfold e2. rewrite len_ptp_encode. f_equal. f_equal. lia. }
  rewrite R2. cbn [bind_result].
  assert (R3 : exists o,
             _read_ptp_string data (len ((((head ++ e0 ++ mode) ++ arrs) ++ e1) ++ e2)) =
             Ok (ver, o)).
  { unfold data.
    replace (head ++ e0 ++ mode ++ arrs ++ e1 ++ e2 ++ e3 ++ tail)
      with (((((head ++ e0 ++ mode) ++ arrs) ++ e1) ++ e2) ++ e3 ++ tail)
      by (rewrite <- !app_assoc; reflexivity).
    unfold e3 at 1. rewrite _read_ptp_string_encoded by assumption.
    eexists. reflexivity. }
  destruct R3 as [o R3]. rewrite R3. reflexivity.
Qed.

Lemma device_info_round_trip_witness :
  _parse_device_info
    (device_info_dataset (bytes_of [100; 0; 11; 0; 0; 0; 100; 0]) [0x45; 0x4F; 0x53]
       (bytes_of [0; 0]) [[0x1001; 0x1002]; []; [0xD167]; []; [0x3801]]
       (mkDeviceInfo (str_of "Canon") (str_of "Canon EOS R7") (str_of "1.0.0"))
       (ptp_string_of "serial")) =
  Ok (mkDeviceInfo (str_of "Canon") (str_of "Canon EOS R7") (str_of "1.0.0")).
Proof.
  apply device_info_round_trip; try reflexivity;
    try (repeat constructor; vm_compute; congruence);
    split; try (vm_compute; congruence);
    repeat constructor; unfold bmp_char; cbn; lia.
Defined.

Lemma skip_arrays_total (n : nat) (data : bytes) :
  forall offset, 0 <= offset ->
    exists offset', skip_arrays n data offset = Ok offset' /\ offset <= offset'.
Proof.
  induction n as [|n IH]; intros offset Ho; cbn [skip_arrays].
  - exists offset. split; [reflexivity|lia].
  - destruct (_skip_uint16_array_total data offset Ho) as (o1 & H1 & L1).
    rewrite H1. cbn [bind_result].
    destruct (IH o1 ltac:(lia)) as (o2 & H2 & L2).
    exists o2. split; [exact H2|lia].
Qed.

Lemma _read_ptp_string_past_end (data : bytes) (offset : Z) :
  len data <= offset -> _read_ptp_string data offset = Ok ([], offset).
Proof.
  intro H. unfold _read_ptp_string.
  replace (len data <=? offset) with true by (symmetry; apply Z.leb_le; assumption).
  reflexivity.
Qed.

Lemma _parse_device_info_total (data : bytes) :
  exists info, _parse_device_info data = Ok info.
Proof.
  unfold _parse_device_info.
  destruct (_read_ptp_string_total data 8 ltac:(lia)) as (s0 & o1 & H0 & L0).
  rewrite H0. cbn [bind_result].
  destruct (skip_arrays_total 5 data (o1 + 2) ltac:(lia)) as (a5 & H5 & L5).
  rewrite H5. cbn [bind_result].
  destruct (_read_ptp_string_total data a5 ltac:(lia)) as (s1 & o2 & H1 & L1).
  rewrite H1. cbn [bind_result].
  destruct (_read_ptp_string_total data o2 ltac:(lia)) as (s2 & o3 & H2 & L2).
  rewrite H2. cbn [bind_result].
  destruct (_read_ptp_string_total data o3 ltac:(lia)) as (s3 & o4 & H3 & L3).
  rewrite H3. eexists. reflexivity.
Qed.

(** X20: a dataset that ends early gives empty strings, not an error: when
    the five arrays end at or beyond the end of the buffer (an element count
    is not checked against the bytes present), and in particular for every
    buffer of at most 10 bytes, [_parse_device_info] returns a device info
    whose manufacturer, model and device version are all empty. *)
Theorem truncated_device_info_is_empty (data : bytes) :
  (forall s0 o1 a5,
     _read_ptp_string data 8 = Ok (s0, o1) ->
     skip_arrays 5 data (o1 + 2) = Ok a5 ->
     len data <= a5 ->
     _parse_device_info data = Ok (mkDeviceInfo [] [] []))
  /\ (len data <= 10 -> _parse_device_info data = Ok (mkDeviceInfo [] [] [])).
Proof.
  assert (Hgen : forall s0 o1 a5,
            _read_ptp_string data 8 = Ok (s0, o1) ->
            skip_arrays 5 data (o1 + 2) = Ok a5 ->
            len data <= a5 ->
            _parse_device_info data = Ok (mkDeviceInfo [] [] [])).
  { intros s0 o1 a5 H0 H5 Hend. unfold _parse_device_info.
    rewrite H0. cbn [bind_result]. rewrite H5. cbn [bind_result].
    rewrite (_read_ptp_string_past_end data a5 Hend). cbn [bind_result].
    rewrite (_read_ptp_string_past_end data a5 Hend). cbn [bind_result].
    rewrite (_read_ptp_string_past_end data a5 Hend). reflexivity. }
  split; [exact Hgen|].
  intro Hshort.
  destruct (_read_ptp_string_total data 8 ltac:(lia)) as (s0 & o1 & H0 & L0).
  destruct (skip_arrays_total 5 data (o1 + 2) ltac:(lia)) as (a5 & H5 & L5).
  apply (Hgen s0 o1 a5 H0 H5). lia.
Qed.

Lemma truncated_device_info_is_empty_witness :
  _parse_device_info sample_overrun_info = Ok (mkDeviceInfo [] [] []).
Proof.
  apply (proj1 (truncated_device_info_is_empty sample_overrun_info) [] 9 8589934605);
    vm_compute; congruence.
Defined.

(** X21: when the device answers GetDeviceInfo with one Data container
    holding [payload] and an OK response, [get_device_info] returns what
    [_parse_device_info] makes of [payload]; decoding cannot fail, so with an
    OK response the call always returns a device info. *)
Theorem device_info_over_the_wire (self : USBTransport) (oep : OutEndpoint)
    (tid : Z) (payload resp : bytes) (rest : list usb_read) :
  ready self (ReadOk (data_container GET_DEVICE_INFO tid payload) ::
              ReadOk resp :: rest) oep ->
  fits 32 tid = true -> fits 32 (12 + len payload) = true ->
  response_with OK resp ->
  exists info,
    _parse_device_info payload = Ok info
    /\ get_device_info self =
       (after_call self oep (command_packet GET_DEVICE_INFO (_transaction_id self) [])
                   rest,
        Ok info).
Proof.
  intros Hready Ht Hl Hresp.
  destruct (_parse_device_info_total payload) as [info Hinfo].
  exists info. split; [exact Hinfo|].
  unfold get_device_info, bind. rewrite send_command_None.
  rewrite (send_command_ready self _ oep GET_DEVICE_INFO [] Hready eq_refl
             u32_params_nil).
  rewrite (receive_data_then_response GET_DEVICE_INFO tid OK payload resp rest []
             eq_refl Ht Hl Hresp).
  cbn [fst snd as_receive_failure Z.eqb Pos.eqb OK negb]. unfold lift.
  rewrite Hinfo. reflexivity.
Qed.

Lemma device_info_over_the_wire_witness :
  exists info,
    _parse_device_info sample_device_info = Ok info
    /\ get_device_info
         (sample_transport [ReadOk (data_container GET_DEVICE_INFO 0 sample_device_info);
                            ReadOk (response_container OK 0)]) =
       (after_call
          (sample_transport [ReadOk (data_container GET_DEVICE_INFO 0 sample_device_info);
                             ReadOk (response_container OK 0)])
          (mkOutEndpoint [] []) (command_packet GET_DEVICE_INFO 0 []) [],
        Ok info).
Proof.
  apply (device_info_over_the_wire
           (sample_transport [ReadOk (data_container GET_DEVICE_INFO 0 sample_device_info);
                              ReadOk (response_container OK 0)])
           (mkOutEndpoint [] []) 0 sample_device_info (response_container OK 0) []);
    try reflexivity.
  - repeat split; reflexivity.
  - apply response_container_with; reflexivity.
Defined.

(** X22: [close_session] on a connected transport sends exactly one
    CloseSession container, without parameters, under the current
    transaction id, and returns normally with the counter moved on by one:
    whatever response code the device answers with, and also when the
    device does not answer at all. *)
Theorem close_session_sends_once (self : USBTransport) (oep : OutEndpoint)
    (reads : list usb_read) :
  ready self reads oep ->
  let cmd := command_packet CLOSE_SESSION (_transaction_id self) [] in
  (forall code raw rest, reads = ReadOk raw :: rest -> response_with code raw ->
     close_session self = (after_call self oep cmd rest, Ok tt))
  /\ (reads = [] -> close_session self = (after_call self oep cmd [], Ok tt)).
Proof.
  intros Hready cmd. unfold close_session, except_Exception_pass.
  rewrite send_command_None.
  rewrite (send_command_ready self reads oep CLOSE_SESSION [] Hready eq_refl
             u32_params_nil).
  fold cmd. split.
  - intros code raw rest -> (H12 & Ht & Hc).
    rewrite receive_eq by assumption. rewrite Ht. reflexivity.
  - intros ->. reflexivity.
Qed.

Lemma close_session_sends_once_witness :
  close_session (sample_transport [ReadOk (response_container DEVICE_BUSY 0)]) =
  (after_call (sample_transport [ReadOk (response_container DEVICE_BUSY 0)])
              (mkOutEndpoint [] []) (command_packet CLOSE_SESSION 0 []) [],
   Ok tt).
Proof.
  apply (proj1 (close_session_sends_once
                  (sample_transport [ReadOk (response_container DEVICE_BUSY 0)])
                  (mkOutEndpoint [] []) [ReadOk (response_container DEVICE_BUSY 0)]
                  ltac:(sample_ready))
               DEVICE_BUSY (response_container DEVICE_BUSY 0) [] eq_refl
               (response_container_with DEVICE_BUSY 0 eq_refl eq_refl)).
Defined.
